(** * onnx-simplifier: execution delegation, folding record and C boundary

    A shallow embedding of [onnxsim/onnxsim.h] (the folding record and the
    executor registry) and of [onnxsim/onnxsim_ffi.cc] (the C boundary with
    its thread-local last-error slot), followed by the properties proved
    about them.

    C++ code that mutates state and may throw is embedded in a state and
    exception monad [ST S A]; the collaborators that are linked in from
    elsewhere (protobuf codec, simplification pipeline, allocator) are the
    fields of a type class.

    Conventions of the embedding:
    - a pointer argument is an [option]: [None] is the null pointer, [Some]
      carries the array behind it (for an input) or the address of the
      caller's object (for an out-parameter); the length that travels with an
      input pointer is a separate [size_t] argument, and a read past the end
      of the array is [Undefined];
    - [size_t] is 64 bits wide; its values are in [N];
    - boundary calls are atomic steps of one thread, which is an explicit
      argument; the [thread_local] string is a map from threads;
    - the pipeline cannot name the boundary's [g_last_error], which has
      internal linkage: it works on the process-wide objects only;
    - the boundary's own [std::string] and [std::optional] operations are
      taken not to run out of memory; the codec, the pipeline and [malloc]
      may fail in any way their types allow. What happens when
      [set_last_error] itself runs out of memory is the subject of the
      module [OutOfMemory], where the entry points are written out again
      with that failure in. *)

From Stdlib Require Import ZArith NArith.
From Stdlib.Strings Require Import Byte.
From stdpp Require Import gmap strings list.

Local Open Scope N_scope.

(** ** Outcomes of C++ code *)

(** What a [catch] clause can see of a thrown object: something derived from
    [std::exception], with its [what()] text, or any other object. *)
Inductive exception : Type :=
  | std_exception (what : string)
  | foreign_exception.

(** A C++ call either returns, or throws, or leaves the defined behaviour of
    the language (a read past the end of an array). *)
Inductive Outcome (A : Type) : Type :=
  | Returns (a : A)
  | Throws (e : exception)
  | Undefined.
Arguments Returns {A} a.
Arguments Throws {A} e.
Arguments Undefined {A}.

(** State changes made before a [throw] persist, so the state is returned
    with every outcome. *)
Definition ST (S A : Type) : Type := S -> Outcome A * S.

Definition ret {S A} (a : A) : ST S A := fun s => (Returns a, s).

Definition throw {S A} (e : exception) : ST S A := fun s => (Throws e, s).

Definition bind {S A B} (c : ST S A) (k : A -> ST S B) : ST S B :=
  fun s =>
    match c s with
    | (Returns a, s') => k a s'
    | (Throws e, s') => (Throws e, s')
    | (Undefined, s') => (Undefined, s')
    end.

(** [try { body } catch (...) { handler }]: every thrown object is caught;
    undefined behaviour is not an exception and is not caught. *)
Definition try_catch {S A} (body : ST S A) (handler : exception -> ST S A)
  : ST S A :=
  fun s =>
    match body s with
    | (Throws e, s') => handler e s'
    | r => r
    end.

(** A pure computation that may throw, run inside a stateful one. *)
Definition lift {S A} (o : Outcome A) : ST S A := fun s => (o, s).

Notation "x <~ c ;; k" := (bind c (fun x => k))
  (at level 100, c at next level, right associativity).
Notation "c ;;; k" := (bind c (fun _ => k))
  (at level 100, right associativity).

(** ** [size_t] *)

Definition size_t_bits : N := 64.
Definition SIZE_MAX : N := 2 ^ size_t_bits - 1.

(** [x++] on a [size_t]: unsigned arithmetic wraps around. *)
Definition size_incr (x : N) : N := (x + 1) mod 2 ^ size_t_bits.

(** ** onnxsim.h: the folding record *)

Record FoldedOp : Type := mkFoldedOp {
  op_type : string;
  op_name : string;
  inputs : list string;
  outputs : list string;
  success : bool;
  error_msg : string
}.

Record FoldingRecord : Type := mkFoldingRecord {
  folded_ops : list FoldedOp;
  total_attempted : N;
  total_succeeded : N;
  total_failed : N
}.

(** [FoldingRecord()]: an empty vector and the three counters at 0. *)
Definition FoldingRecord_ctor : FoldingRecord :=
  mkFoldingRecord [] 0 0 0.

(** The text carried by the [std::length_error] of a full vector. *)
Definition length_error_what : string := "vector::_M_realloc_append".

Section Vector.
(** [std::vector<FoldedOp>::max_size()], a constant of the standard
    library the header is compiled against. *)
Variable max_size : N.

(** [v.push_back(x)]: appends, or throws [std::length_error] and leaves
    the vector as it was when it already holds [max_size()] elements. *)
Definition push_back {A} (x : A) : ST (list A) unit :=
  fun v =>
    if decide (N.of_nat (length v) < max_size)
    then (Returns (), v ++ [x])
    else (Throws (std_exception length_error_what), v).

Definition RecordFold (op : FoldedOp) : ST FoldingRecord unit :=
  fun r =>
    match push_back op (folded_ops r) with
    | (Returns _, v) =>
        let attempted := size_incr (total_attempted r) in
        if success op
        then (Returns (),
              mkFoldingRecord v attempted
                (size_incr (total_succeeded r)) (total_failed r))
        else (Returns (),
              mkFoldingRecord v attempted
                (total_succeeded r) (size_incr (total_failed r)))
    | (Throws e, _) => (Throws e, r)
    | (Undefined, _) => (Undefined, r)
    end.

Definition Clear : ST FoldingRecord unit :=
  fun _ => (Returns (), mkFoldingRecord [] 0 0 0).

(** The states of a folding record: the constructed one, and what
    [RecordFold] and [Clear] leave behind, whether they return or throw. *)
Inductive reachable : FoldingRecord -> Prop :=
  | reachable_ctor : reachable FoldingRecord_ctor
  | reachable_RecordFold op r :
      reachable r -> reachable (snd (RecordFold op r))
  | reachable_Clear r :
      reachable r -> reachable (snd (Clear r)).

(** What every reachable record satisfies; the bound on the length is what
    keeps the counters from wrapping. *)
Definition counters_agree (r : FoldingRecord) : Prop :=
  total_attempted r = total_succeeded r + total_failed r
  /\ total_attempted r = N.of_nat (length (folded_ops r))
  /\ N.of_nat (length (folded_ops r)) <= max_size.
End Vector.

(** ** onnxsim.h: the executor registry *)

(** The types the headers take from elsewhere: the protobuf messages, and
    [Outside], everything a linked-in function may read or change that is
    not an object of this program (the heap, the file system). *)
Class Types : Type := {
  ModelProto : Type;
  TensorProto : Type;
  Outside : Type
}.

(** The abstract class [ModelExecutor]: one pure virtual method. *)
Record ModelExecutor `{Types} : Type := mkModelExecutor {
  _Run : ModelProto -> list TensorProto -> ST Outside (list TensorProto)
}.
Arguments mkModelExecutor {_} _.

(** The process-wide objects of onnxsim.h. [delegated] is a ghost field: one
    entry for each call that reached a registered executor's [_Run]. *)
Record Process `{Types} : Type := mkProcess {
  g_folding_record : FoldingRecord;
  instance_ : option ModelExecutor;
  outside : Outside;
  delegated : list (ModelProto * list TensorProto)
}.
Arguments mkProcess {_} _ _ _ _.

Definition set_instance `{Types} (instance : option ModelExecutor)
  : ST Process unit :=
  fun p =>
    (Returns (),
     mkProcess (g_folding_record p) instance (outside p) (delegated p)).

(** [std::runtime_error("empty instance")], the condition of a call with no
    executor bound. *)
Definition NoExecutorBound : exception := std_exception "empty instance".

Definition Run `{Types} (model : ModelProto) (inputs : list TensorProto)
  : ST Process (list TensorProto) :=
  fun p =>
    match instance_ p with
    | None => (Throws NoExecutorBound, p)
    | Some executor =>
        let '(r, o) := _Run executor model inputs (outside p) in
        (r, mkProcess (g_folding_record p) (instance_ p) o
              (delegated p ++ [(model, inputs)]))
    end.

(** ** onnxsim_ffi.h: error codes *)

Inductive onnxsim_error_t : Type :=
  | ONNXSIM_SUCCESS
  | ONNXSIM_ERROR_INVALID_ARGUMENT
  | ONNXSIM_ERROR_PARSE_FAILED
  | ONNXSIM_ERROR_SERIALIZE_FAILED
  | ONNXSIM_ERROR_SIMPLIFICATION_FAILED
  | ONNXSIM_ERROR_INTERNAL.

Definition error_value (c : onnxsim_error_t) : Z :=
  match c with
  | ONNXSIM_SUCCESS => 0
  | ONNXSIM_ERROR_INVALID_ARGUMENT => 1
  | ONNXSIM_ERROR_PARSE_FAILED => 2
  | ONNXSIM_ERROR_SERIALIZE_FAILED => 3
  | ONNXSIM_ERROR_SIMPLIFICATION_FAILED => 4
  | ONNXSIM_ERROR_INTERNAL => 5
  end%Z.

(** ** onnxsim_ffi.cc: what the boundary is linked against *)

(** The functions the boundary calls and this repository's sources only
    declare. [ParseFromString] gives [None] for [false]; [Simplify] and
    [SimplifyPath] work on the process-wide objects; [malloc] gives [false]
    for a null result. *)
Class Collaborators `{Types} : Type := {
  ParseFromString : list byte -> Outcome (option ModelProto);
  SerializeToString : ModelProto -> Outcome (option (list byte));
  Simplify :
    ModelProto -> option (list string) -> bool -> bool -> N ->
    ST Process ModelProto;
  SimplifyPath :
    string -> string -> option (list string) -> bool -> bool -> N ->
    ST Process unit;
  malloc : N -> Outside -> bool * Outside
}.

Definition thread : Type := nat.
Definition addr : Type := positive.

(** The boundary's steps, in the order they happen (a ghost log). *)
Inductive Event `{Types} : Type :=
  | EvSetLastError (t : thread) (error : string)
  | EvParseFromString (s : list byte) (r : Outcome (option ModelProto))
  | EvSimplify (model : ModelProto) (skip_optimizers : option (list string))
      (constant_folding shape_inference : bool) (tensor_size_threshold : N)
      (r : Outcome ModelProto)
  | EvSimplifyPath (in_path out_path : string)
      (skip_optimizers : option (list string))
      (constant_folding shape_inference : bool) (tensor_size_threshold : N)
      (r : Outcome unit)
  | EvSerializeToString (model : ModelProto)
      (r : Outcome (option (list byte)))
  | EvMalloc (size : N) (ok : bool).

(** What a boundary call can reach: the process-wide objects, the
    [thread_local] string of every thread (an absent key is a string never
    assigned, hence empty), and the caller's objects behind [out_bytes]
    (a [uint8_t*]: [None] is null, [Some b] points to a block holding [b])
    and [out_bytes_len] (a [size_t]). *)
Record World `{Types} : Type := mkWorld {
  process : Process;
  g_last_error : gmap thread string;
  ptr_cells : gmap addr (option (list byte));
  size_cells : gmap addr N;
  log : list Event
}.
Arguments mkWorld {_} _ _ _ _ _.

Section Boundary.
Context `{Collaborators}.

Definition emit (ev : Event) (w : World) : World :=
  mkWorld (process w) (g_last_error w) (ptr_cells w) (size_cells w)
    (log w ++ [ev]).

(** The assignment to [g_last_error], here with the memory it needs at
    hand; [OutOfMemory.set_last_error] is the same without that proviso. *)
Definition set_last_error (t : thread) (error : string) : ST World unit :=
  fun w =>
    (Returns (),
     emit (EvSetLastError t error)
       (mkWorld (process w) (<[t := error]> (g_last_error w))
          (ptr_cells w) (size_cells w) (log w))).

(** [throw;] re-raises the exception in flight, here the argument [e]; the
    two [catch] clauses tell an [std::exception] from anything else. With
    [set_last_error] as above nothing is thrown from a clause; see
    [OutOfMemory.handle_exception] for when it is. *)
Definition handle_exception (t : thread) (e : exception)
  : ST World onnxsim_error_t :=
  match e with
  | std_exception what =>
      set_last_error t what ;;; ret ONNXSIM_ERROR_INTERNAL
  | foreign_exception =>
      set_last_error t "Unknown error" ;;; ret ONNXSIM_ERROR_INTERNAL
  end.

(** [std::string(ptr, len)]: reads [len] elements behind [ptr]. *)
Definition read_array {A} (buf : list A) (len : N) : Outcome (list A) :=
  if decide (len <= N.of_nat (length buf))
  then Returns (take (N.to_nat len) buf)
  else Undefined.

Definition model_ParseFromString (s : list byte)
  : ST World (option ModelProto) :=
  fun w =>
    let r := ParseFromString s in
    (r, emit (EvParseFromString s r) w).

Definition call_Simplify (model : ModelProto)
    (skip_opts : option (list string)) (constant_folding shape_inference : bool)
    (tensor_size_threshold : N) : ST World ModelProto :=
  fun w =>
    let '(r, p) :=
      Simplify model skip_opts constant_folding shape_inference
        tensor_size_threshold (process w) in
    (r, emit (EvSimplify model skip_opts constant_folding shape_inference
                tensor_size_threshold r)
          (mkWorld p (g_last_error w) (ptr_cells w) (size_cells w) (log w))).

Definition call_SimplifyPath (in_path out_path : string)
    (skip_opts : option (list string)) (constant_folding shape_inference : bool)
    (tensor_size_threshold : N) : ST World unit :=
  fun w =>
    let '(r, p) :=
      SimplifyPath in_path out_path skip_opts constant_folding shape_inference
        tensor_size_threshold (process w) in
    (r, emit (EvSimplifyPath in_path out_path skip_opts constant_folding
                shape_inference tensor_size_threshold r)
          (mkWorld p (g_last_error w) (ptr_cells w) (size_cells w) (log w))).

Definition model_SerializeToString (model : ModelProto)
  : ST World (option (list byte)) :=
  fun w =>
    let r := SerializeToString model in
    (r, emit (EvSerializeToString model r) w).

Definition std_malloc (size : N) : ST World bool :=
  fun w =>
    let p := process w in
    let '(ok, o) := malloc size (outside p) in
    (Returns ok,
     emit (EvMalloc size ok)
       (mkWorld
          (mkProcess (g_folding_record p) (instance_ p) o (delegated p))
          (g_last_error w) (ptr_cells w) (size_cells w) (log w))).

Definition store_size (a : addr) (v : N) : ST World unit :=
  fun w =>
    (Returns (),
     mkWorld (process w) (g_last_error w) (ptr_cells w)
       (<[a := v]> (size_cells w)) (log w)).

Definition store_ptr (a : addr) (v : option (list byte)) : ST World unit :=
  fun w =>
    (Returns (),
     mkWorld (process w) (g_last_error w) (<[a := v]> (ptr_cells w))
       (size_cells w) (log w)).

(** The loop over [skip_optimizers[i]], [remaining] iterations from index
    [i] on: null entries are passed over, the others are pushed back. *)
Fixpoint skip_loop (skip_optimizers : list (option string)) (i remaining : nat)
    (opts : list string) : Outcome (list string) :=
  match remaining with
  | O => Returns opts
  | S remaining' =>
      match skip_optimizers !! i with
      | None => Undefined
      | Some None => skip_loop skip_optimizers (S i) remaining' opts
      | Some (Some name) =>
          skip_loop skip_optimizers (S i) remaining' (opts ++ [name])
      end
  end.

(** The block "Prepare skip optimizers", the same in both entry points. *)
Definition prepare_skip_opts (skip_optimizers : option (list (option string)))
    (skip_optimizers_len : N) : Outcome (option (list string)) :=
  match skip_optimizers with
  | Some array =>
      if decide (0 < skip_optimizers_len)
      then
        match skip_loop array 0 (N.to_nat skip_optimizers_len) [] with
        | Returns opts => Returns (Some opts)
        | Throws e => Throws e
        | Undefined => Undefined
        end
      else Returns None
  | None => Returns None
  end.

Definition int_to_bool (x : Z) : bool := negb (x =? 0)%Z.

(** On the success path the store to [*out_bytes] and the [memcpy] into the
    new block are one step: the cell ends up pointing to a copy of the
    output. When [malloc] fails the store writes null. *)
Definition onnxsim_simplify_bytes (t : thread)
    (model_bytes : option (list byte)) (model_bytes_len : N)
    (skip_optimizers : option (list (option string)))
    (skip_optimizers_len : N)
    (constant_folding shape_inference : Z) (tensor_size_threshold : N)
    (out_bytes out_bytes_len : option addr) : ST World onnxsim_error_t :=
  try_catch
    (match model_bytes with
     | None =>
         set_last_error t "model_bytes cannot be NULL" ;;;
         ret ONNXSIM_ERROR_INVALID_ARGUMENT
     | Some buffer =>
         match out_bytes, out_bytes_len with
         | Some out, Some out_len =>
             model_str <~ lift (read_array buffer model_bytes_len) ;;
             parsed <~ model_ParseFromString model_str ;;
             match parsed with
             | None =>
                 set_last_error t "Failed to parse model protobuf" ;;;
                 ret ONNXSIM_ERROR_PARSE_FAILED
             | Some model =>
                 skip_opts <~
                   lift (prepare_skip_opts skip_optimizers
                           skip_optimizers_len) ;;
                 simplified_model <~
                   call_Simplify model skip_opts
                     (int_to_bool constant_folding)
                     (int_to_bool shape_inference) tensor_size_threshold ;;
                 serialized <~ model_SerializeToString simplified_model ;;
                 match serialized with
                 | None =>
                     set_last_error t
                       "Failed to serialize simplified model" ;;;
                     ret ONNXSIM_ERROR_SERIALIZE_FAILED
                 | Some output =>
                     let size := N.of_nat (length output) in
                     store_size out_len size ;;;
                     ok <~ std_malloc size ;;
                     if ok : bool
                     then
                       store_ptr out (Some output) ;;;
                       ret ONNXSIM_SUCCESS
                     else
                       store_ptr out None ;;;
                       set_last_error t
                         "Failed to allocate memory for output" ;;;
                       ret ONNXSIM_ERROR_INTERNAL
                 end
             end
         | _, _ =>
             set_last_error t "out_bytes or out_bytes_len cannot be NULL" ;;;
             ret ONNXSIM_ERROR_INVALID_ARGUMENT
         end
     end)
    (handle_exception t).

Definition onnxsim_simplify_file (t : thread)
    (in_path out_path : option string)
    (skip_optimizers : option (list (option string)))
    (skip_optimizers_len : N)
    (constant_folding shape_inference : Z) (tensor_size_threshold : N)
  : ST World onnxsim_error_t :=
  try_catch
    (match in_path, out_path with
     | Some in_path', Some out_path' =>
         skip_opts <~
           lift (prepare_skip_opts skip_optimizers skip_optimizers_len) ;;
         call_SimplifyPath in_path' out_path' skip_opts
           (int_to_bool constant_folding) (int_to_bool shape_inference)
           tensor_size_threshold ;;;
         ret ONNXSIM_SUCCESS
     | _, _ =>
         set_last_error t "in_path and out_path cannot be NULL" ;;;
         ret ONNXSIM_ERROR_INVALID_ARGUMENT
     end)
    (handle_exception t).

(** [g_last_error.empty() ? nullptr : g_last_error.c_str()] *)
Definition onnxsim_get_last_error (t : thread) (w : World) : option string :=
  let s := default "" (g_last_error w !! t) in
  if decide (s = "") then None else Some s.

(** The events a call added to the log of the world it started in. *)
Definition events_since (w w' : World) : list Event :=
  drop (length (log w)) (log w').

(** The text [handle_exception] stores for a caught exception. *)
Definition exception_message (e : exception) : string :=
  match e with
  | std_exception what => what
  | foreign_exception => "Unknown error"
  end.

(** The exception a logged call to the codec or the pipeline ended with. *)
Definition raised_in (ev : Event) : option exception :=
  match ev with
  | EvParseFromString _ (Throws e) => Some e
  | EvSimplify _ _ _ _ _ (Throws e) => Some e
  | EvSimplifyPath _ _ _ _ _ _ (Throws e) => Some e
  | EvSerializeToString _ (Throws e) => Some e
  | _ => None
  end.

(** A boundary call of thread [t], started in [w], that ended as [res]:
    it did not throw; an exception raised by the codec or the pipeline was
    turned into the internal-error code with its text as the thread's
    message; and a failing code is returned right after a message was
    stored. *)
Definition failures_translated (t : thread) (w : World)
    (res : Outcome onnxsim_error_t * World) : Prop :=
  (forall e, fst res <> Throws e)
  /\ (forall ev e,
        ev ∈ events_since w (snd res) -> raised_in ev = Some e ->
        fst res = Returns ONNXSIM_ERROR_INTERNAL
        /\ g_last_error (snd res) !! t = Some (exception_message e))
  /\ (forall c,
        fst res = Returns c -> c <> ONNXSIM_SUCCESS ->
        exists msg,
          last (events_since w (snd res)) = Some (EvSetLastError t msg)
          /\ g_last_error (snd res) !! t = Some msg).

(** What a boundary call of thread [t] does to the messages
    [onnxsim_get_last_error] reports: a successful call changes none, no
    call changes another thread's, and a failing call leaves the message it
    stored, reported unless it is empty. *)
Definition last_error_updated (t : thread) (w : World)
    (res : Outcome onnxsim_error_t * World) : Prop :=
  (fst res = Returns ONNXSIM_SUCCESS ->
   forall t', onnxsim_get_last_error t' (snd res) = onnxsim_get_last_error t' w)
  /\ (forall t', t' <> t ->
        onnxsim_get_last_error t' (snd res) = onnxsim_get_last_error t' w)
  /\ (forall c,
        fst res = Returns c -> c <> ONNXSIM_SUCCESS ->
        exists msg,
          last (events_since w (snd res)) = Some (EvSetLastError t msg)
          /\ onnxsim_get_last_error t (snd res) =
               (if decide (msg = "") then None else Some msg)).

End Boundary.

(** ** A small concrete environment

    Used to run the boundary on explicit inputs. A model is its own wire
    format; a buffer is accepted when its first byte is [0x08]; the allocator
    hands out at most the number of bytes recorded in [Outside]; with
    constant folding on, the pipeline delegates once to the registry. *)
Module Stub.

#[export] Instance types : Types := {|
  ModelProto := list byte;
  TensorProto := N;
  Outside := N
|}.

Definition parse (s : list byte) : Outcome (option (list byte)) :=
  match s with
  | x08 :: _ => Returns (Some s)
  | xff :: _ => Throws foreign_exception
  | _ => Returns None
  end.

Definition simplify (model : list byte) (skip : option (list string))
    (constant_folding shape_inference : bool) (threshold : N)
  : ST Process (list byte) :=
  if constant_folding
  then Run model [] ;;; ret model
  else ret model.

Definition simplify_path (in_path out_path : string)
    (skip : option (list string)) (constant_folding shape_inference : bool)
    (threshold : N) : ST Process unit :=
  if decide (in_path = "")
  then throw (std_exception "cannot open input file")
  else ret ().

Definition allocate (size : N) (free : N) : bool * N :=
  if decide (size <= free) then (true, free - size) else (false, free).

#[export] Instance collaborators : Collaborators := {|
  ParseFromString := parse;
  SerializeToString := fun model => Returns (Some model);
  Simplify := simplify;
  SimplifyPath := simplify_path;
  malloc := allocate
|}.

(** A fresh process: no executor registered, an empty folding record, and
    [free] bytes left to allocate. *)
Definition start (free : N) : World :=
  mkWorld (mkProcess FoldingRecord_ctor None free []) ∅ ∅ ∅ [].

Definition add_op : FoldedOp :=
  mkFoldedOp "Add" "add_0" ["a"; "b"] ["c"] true "".

Definition bad_op : FoldedOp :=
  mkFoldedOp "Loop" "" ["x"] ["y"] false "unsupported".

End Stub.

(** ** Sequences of operations *)

(** [RecordFold] called once for each entry of [ops], in order, as the
    pipeline does while it folds; the first call that throws ends it. *)
Fixpoint RecordFold_each (max_size : N) (ops : list FoldedOp)
  : ST FoldingRecord unit :=
  match ops with
  | [] => ret ()
  | op :: ops' => RecordFold max_size op ;;; RecordFold_each max_size ops'
  end.

(** The number of entries whose success flag is [b]. *)
Definition count_success (b : bool) (ops : list FoldedOp) : N :=
  N.of_nat (length (filter (fun op => success op = b) ops)).

(** A logged call to the codec or the pipeline that left defined
    behaviour. *)
Definition undefined_in `{Types} (ev : Event) : Prop :=
  match ev with
  | EvParseFromString _ Undefined => True
  | EvSimplify _ _ _ _ _ Undefined => True
  | EvSimplifyPath _ _ _ _ _ _ Undefined => True
  | EvSerializeToString _ Undefined => True
  | _ => False
  end.

(** A call of one of the two entry points, with its arguments. *)
Inductive BoundaryCall : Type :=
  | SimplifyBytes (t : thread)
      (model_bytes : option (list byte)) (model_bytes_len : N)
      (skip_optimizers : option (list (option string)))
      (skip_optimizers_len : N)
      (constant_folding shape_inference : Z) (tensor_size_threshold : N)
      (out_bytes out_bytes_len : option addr)
  | SimplifyFile (t : thread)
      (in_path out_path : option string)
      (skip_optimizers : option (list (option string)))
      (skip_optimizers_len : N)
      (constant_folding shape_inference : Z) (tensor_size_threshold : N).

Definition caller (c : BoundaryCall) : thread :=
  match c with
  | SimplifyBytes t _ _ _ _ _ _ _ _ _ => t
  | SimplifyFile t _ _ _ _ _ _ _ => t
  end.

Section Sequences.
Context `{Collaborators}.

Definition perform (c : BoundaryCall) : ST World onnxsim_error_t :=
  match c with
  | SimplifyBytes t mb mbl sk skl cf si thr out outl =>
      onnxsim_simplify_bytes t mb mbl sk skl cf si thr out outl
  | SimplifyFile t inp outp sk skl cf si thr =>
      onnxsim_simplify_file t inp outp sk skl cf si thr
  end.

(** The calls of [cs] made one after the other, by whichever threads. *)
Fixpoint perform_each (cs : list BoundaryCall) (w : World) : World :=
  match cs with
  | [] => w
  | c :: cs' => perform_each cs' (snd (perform c w))
  end.

(** In the run of [cs] from [w], every call made by thread [t] returns the
    success code. *)
Fixpoint succeeds_on (t : thread) (cs : list BoundaryCall) (w : World)
  : Prop :=
  match cs with
  | [] => True
  | c :: cs' =>
      (caller c = t -> fst (perform c w) = Returns ONNXSIM_SUCCESS)
      /\ succeeds_on t cs' (snd (perform c w))
  end.

End Sequences.

(** The logged calls to the pipeline, and their number. *)
Definition pipeline_call `{Types} (ev : Event) : option Event :=
  match ev with
  | EvSimplify _ _ _ _ _ _ => Some ev
  | EvSimplifyPath _ _ _ _ _ _ _ => Some ev
  | _ => None
  end.

Definition pipeline_calls `{Types} (evs : list Event) : nat :=
  length (omap pipeline_call evs).

(** The concrete environment of [Stub] with a codec that cannot serialize a
    model of a single byte. *)
Module Picky.

Definition serialize (model : list byte) : Outcome (option (list byte)) :=
  match model with
  | [_] => Returns None
  | _ => Returns (Some model)
  end.

Definition collaborators : @Collaborators Stub.types :=
  @Build_Collaborators Stub.types
    Stub.parse serialize Stub.simplify Stub.simplify_path Stub.allocate.

End Picky.

(** ** The boundary when storing the message runs out of memory

    [set_last_error] builds a [std::string] from its argument and assigns it
    to [g_last_error]; both steps may need memory, and throw
    [std::bad_alloc] when there is none. The definitions above take them to
    succeed. The module [OutOfMemory] repeats [set_last_error],
    [handle_exception] and the two entry points with that failure in: a
    [set_last_error] that throws inside the [try] block is caught like any
    other exception; one that throws inside a [catch] clause of
    [handle_exception] is caught by nothing and leaves the entry point. *)

Definition bad_alloc : exception := std_exception "std::bad_alloc".

(** Whether the strings of [set_last_error] for a given text can be had
    in a given state of the heap, and the state afterwards. *)
Class StringHeap `{Types} : Type := {
  string_alloc : string -> Outside -> bool * Outside
}.

Module OutOfMemory.
Section Boundary.
Context `{Collaborators} `{!StringHeap}.

Definition set_last_error (t : thread) (error : string) : ST World unit :=
  fun w =>
    let p := process w in
    let '(ok, o) := string_alloc error (outside p) in
    let p' := mkProcess (g_folding_record p) (instance_ p) o (delegated p) in
    if ok : bool
    then
      (Returns (),
       emit (EvSetLastError t error)
         (mkWorld p' (<[t := error]> (g_last_error w))
            (ptr_cells w) (size_cells w) (log w)))
    else
      (Throws bad_alloc,
       mkWorld p' (g_last_error w) (ptr_cells w) (size_cells w) (log w)).

(** An exception thrown by [set_last_error] inside one [catch] clause is not
    caught by the other: it leaves [handle_exception]. *)
Definition handle_exception (t : thread) (e : exception)
  : ST World onnxsim_error_t :=
  match e with
  | std_exception what =>
      set_last_error t what ;;; ret ONNXSIM_ERROR_INTERNAL
  | foreign_exception =>
      set_last_error t "Unknown error" ;;; ret ONNXSIM_ERROR_INTERNAL
  end.

Definition onnxsim_simplify_bytes (t : thread)
    (model_bytes : option (list byte)) (model_bytes_len : N)
    (skip_optimizers : option (list (option string)))
    (skip_optimizers_len : N)
    (constant_folding shape_inference : Z) (tensor_size_threshold : N)
    (out_bytes out_bytes_len : option addr) : ST World onnxsim_error_t :=
  try_catch
    (match model_bytes with
     | None =>
         set_last_error t "model_bytes cannot be NULL" ;;;
         ret ONNXSIM_ERROR_INVALID_ARGUMENT
     | Some buffer =>
         match out_bytes, out_bytes_len with
         | Some out, Some out_len =>
             model_str <~ lift (read_array buffer model_bytes_len) ;;
             parsed <~ model_ParseFromString model_str ;;
             match parsed with
             | None =>
                 set_last_error t "Failed to parse model protobuf" ;;;
                 ret ONNXSIM_ERROR_PARSE_FAILED
             | Some model =>
                 skip_opts <~
                   lift (prepare_skip_opts skip_optimizers
                           skip_optimizers_len) ;;
                 simplified_model <~
                   call_Simplify model skip_opts
                     (int_to_bool constant_folding)
                     (int_to_bool shape_inference) tensor_size_threshold ;;
                 serialized <~ model_SerializeToString simplified_model ;;
                 match serialized with
                 | None =>
                     set_last_error t
                       "Failed to serialize simplified model" ;;;
                     ret ONNXSIM_ERROR_SERIALIZE_FAILED
                 | Some output =>
                     let size := N.of_nat (length output) in
                     store_size out_len size ;;;
                     ok <~ std_malloc size ;;
                     if ok : bool
                     then
                       store_ptr out (Some output) ;;;
                       ret ONNXSIM_SUCCESS
                     else
                       store_ptr out None ;;;
                       set_last_error t
                         "Failed to allocate memory for output" ;;;
                       ret ONNXSIM_ERROR_INTERNAL
                 end
             end
         | _, _ =>
             set_last_error t "out_bytes or out_bytes_len cannot be NULL" ;;;
             ret ONNXSIM_ERROR_INVALID_ARGUMENT
         end
     end)
    (handle_exception t).

Definition onnxsim_simplify_file (t : thread)
    (in_path out_path : option string)
    (skip_optimizers : option (list (option string)))
    (skip_optimizers_len : N)
    (constant_folding shape_inference : Z) (tensor_size_threshold : N)
  : ST World onnxsim_error_t :=
  try_catch
    (match in_path, out_path with
     | Some in_path', Some out_path' =>
         skip_opts <~
           lift (prepare_skip_opts skip_optimizers skip_optimizers_len) ;;
         call_SimplifyPath in_path' out_path' skip_opts
           (int_to_bool constant_folding) (int_to_bool shape_inference)
           tensor_size_threshold ;;;
         ret ONNXSIM_SUCCESS
     | _, _ =>
         set_last_error t "in_path and out_path cannot be NULL" ;;;
         ret ONNXSIM_ERROR_INVALID_ARGUMENT
     end)
    (handle_exception t).

End Boundary.
End OutOfMemory.

(** A heap for the concrete environment of [Stub]: a string of at most 15
    characters lives inside the string object; a longer one takes its
    length plus one from the free bytes. *)
Module Tight.

Definition string_alloc (s : string) (free : N) : bool * N :=
  let size := N.of_nat (String.length s) in
  if decide (size <= 15) then (true, free)
  else if decide (size + 1 <= free) then (true, free - (size + 1))
  else (false, free).

Definition heap : @StringHeap Stub.types :=
  @Build_StringHeap Stub.types string_alloc.

End Tight.

(** ** Proof automation for the boundary *)

Ltac unfold_boundary :=
  unfold onnxsim_simplify_bytes, onnxsim_simplify_file, try_catch,
    handle_exception, bind, ret, lift, throw, set_last_error,
    model_ParseFromString, call_Simplify, call_SimplifyPath,
    model_SerializeToString, std_malloc, store_size, store_ptr in *.

(** Brings the events added by a call into the form of an explicit list. *)
Ltac since :=
  unfold events_since, emit in *; simpl in *;
  rewrite <- ?app_assoc in *;
  rewrite ?drop_app_length, ?drop_all in *; simpl in *.

(** One goal for each path through a boundary function. *)
Ltac paths := unfold_boundary; repeat case_match; simplify_eq/=; since.

(** Case analysis on which event of an explicit list [H] speaks of. *)
Ltac pick_event H :=
  repeat (apply elem_of_cons in H as [H|H];
          [try discriminate H; simplify_eq/=|]);
  try (apply elem_of_nil in H; destruct H).

(** * Properties *)

(** ** The folding record *)

Section FoldingRecordFacts.
Variable max_size : N.
Hypothesis max_size_fits : max_size <= SIZE_MAX.

Lemma size_incr_no_wrap x : x < SIZE_MAX -> size_incr x = x + 1.
Proof.
  unfold size_incr, SIZE_MAX. intros Hx.
  apply N.mod_small. lia.
Qed.

Lemma RecordFold_returns op r :
  counters_agree max_size r ->
  N.of_nat (length (folded_ops r)) < max_size ->
  RecordFold max_size op r =
    (Returns (),
     mkFoldingRecord (folded_ops r ++ [op])
       (total_attempted r + 1)
       (total_succeeded r + (if success op then 1 else 0))
       (total_failed r + (if success op then 0 else 1))).
Proof.
  intros (Hsum & Hlen & _) Hroom.
  unfold RecordFold, push_back.
  destruct (decide _) as [_|Hno]; [|contradiction].
  assert (total_attempted r < SIZE_MAX) by lia.
  destruct (success op);
    rewrite !size_incr_no_wrap by lia; f_equal; f_equal; lia.
Qed.

Lemma RecordFold_full op r :
  ¬ N.of_nat (length (folded_ops r)) < max_size ->
  RecordFold max_size op r = (Throws (std_exception length_error_what), r).
Proof.
  intros Hfull. unfold RecordFold, push_back.
  destruct (decide _); [contradiction|reflexivity].
Qed.

Lemma counters_agree_RecordFold op r :
  counters_agree max_size r ->
  counters_agree max_size (snd (RecordFold max_size op r)).
Proof.
  intros Hr.
  destruct (decide (N.of_nat (length (folded_ops r)) < max_size)) as [Hroom|Hfull].
  - rewrite RecordFold_returns by assumption.
    destruct Hr as (Hsum & Hlen & _). unfold counters_agree. simpl.
    rewrite length_app. simpl. destruct (success op); lia.
  - rewrite RecordFold_full by assumption. exact Hr.
Qed.

Lemma reachable_counters_agree r : reachable max_size r -> counters_agree max_size r.
Proof.
  induction 1 as [|op r _ IH|r _ _].
  - unfold counters_agree. simpl. lia.
  - apply counters_agree_RecordFold, IH.
  - unfold counters_agree. simpl. lia.
Qed.

(** C2. In every state of the folding record reachable from the constructed
    one by [RecordFold] and [Clear], attempted = succeeded + failed = number
    of entries; a [RecordFold] on such a state (with room left in the vector)
    appends exactly its entry, adds one to attempted and one to exactly one
    of succeeded and failed, chosen by the entry's success flag (on a full
    vector [push_back] throws and the record stays as it is); [Clear] leaves
    three zero counters and no entries. *)
Theorem folding_record_invariant :
  (forall r, reachable max_size r ->
     total_attempted r = total_succeeded r + total_failed r
     /\ total_succeeded r + total_failed r = N.of_nat (length (folded_ops r)))
  /\ (forall op r, reachable max_size r ->
        N.of_nat (length (folded_ops r)) < max_size ->
        RecordFold max_size op r =
          (Returns (),
           mkFoldingRecord (folded_ops r ++ [op])
             (total_attempted r + 1)
             (total_succeeded r + (if success op then 1 else 0))
             (total_failed r + (if success op then 0 else 1))))
  /\ (forall op r,
        ¬ N.of_nat (length (folded_ops r)) < max_size ->
        RecordFold max_size op r =
          (Throws (std_exception length_error_what), r))
  /\ (forall r, Clear r = (Returns (), mkFoldingRecord [] 0 0 0)).
Proof.
  split; [|split; [|split]].
  - intros r Hr. destruct (reachable_counters_agree r Hr) as (Hsum & Hlen & _).
    split; [exact Hsum|congruence].
  - intros op r Hr Hroom.
    apply RecordFold_returns; [apply reachable_counters_agree, Hr|exact Hroom].
  - intros op r Hfull. apply RecordFold_full, Hfull.
  - reflexivity.
Qed.

End FoldingRecordFacts.

Lemma folding_record_invariant_witness :
  let r := snd (RecordFold 2 Stub.bad_op
                  (snd (RecordFold 2 Stub.add_op FoldingRecord_ctor))) in
  (total_attempted r = 2 /\ total_succeeded r = 1 /\ total_failed r = 1)
  /\ (total_attempted r = total_succeeded r + total_failed r
      /\ total_succeeded r + total_failed r = N.of_nat (length (folded_ops r)))
  /\ RecordFold 2 Stub.add_op FoldingRecord_ctor =
       (Returns (), mkFoldingRecord [Stub.add_op] 1 1 0).
Proof.
  assert (Hfits : 2 <= SIZE_MAX) by (vm_compute; discriminate).
  destruct (folding_record_invariant 2 Hfits) as (Hinv & Hstep & _).
  split; [repeat split|split].
  - apply Hinv. do 2 apply reachable_RecordFold. apply reachable_ctor.
  - apply (Hstep Stub.add_op FoldingRecord_ctor);
      [apply reachable_ctor|vm_compute; reflexivity].
Defined.

(** ** The executor registry *)

Section RegistryFacts.
Context `{Collaborators}.

(** C1. With no executor registered, [Run] throws the no-executor condition
    whatever the model and the inputs are, and changes nothing: in
    particular no delegation is recorded. When that exception reaches the
    boundary's handler it becomes the internal-error code, with the
    condition's text as the thread's message. *)
Theorem Run_without_executor (model : ModelProto) (inputs : list TensorProto)
    (p : Process) :
  instance_ p = None ->
  Run model inputs p = (Throws NoExecutorBound, p)
  /\ delegated (snd (Run model inputs p)) = delegated p
  /\ (forall t w,
        fst (handle_exception t NoExecutorBound w) =
          Returns ONNXSIM_ERROR_INTERNAL
        /\ onnxsim_get_last_error t (snd (handle_exception t NoExecutorBound w))
           = Some "empty instance").
Proof.
  intros Hnone. unfold Run. rewrite Hnone. repeat split.
  unfold onnxsim_get_last_error. simpl.
  rewrite lookup_insert_eq. reflexivity.
Qed.

End RegistryFacts.

Lemma Run_without_executor_witness :
  @Run Stub.types [x08; x01] [7; 9] (process (Stub.start 0)) =
    (Throws NoExecutorBound, process (Stub.start 0)).
Proof.
  refine (proj1 (@Run_without_executor Stub.types
                   [x08; x01] [7; 9] (process (Stub.start 0)) _)).
  reflexivity.
Defined.

(** ** The boundary *)

Section BoundaryFacts.
Context `{Collaborators}.

Lemma skip_loop_spec (array : list (option string)) (remaining i : nat) opts :
  (i + remaining <= length array)%nat ->
  skip_loop array i remaining opts =
    Returns (opts ++ omap id (take remaining (drop i array))).
Proof.
  revert i opts. induction remaining as [|n IH]; intros i opts Hle; simpl.
  - rewrite app_nil_r. reflexivity.
  - destruct (lookup_lt_is_Some_2 array i ltac:(lia)) as [entry Hentry].
    rewrite Hentry, (drop_S _ _ _ Hentry). simpl.
    destruct entry as [name|]; simpl; rewrite IH by lia.
    + rewrite <- app_assoc. reflexivity.
    + reflexivity.
Qed.

Lemma omap_all_null (entries : list (option string)) :
  Forall (fun entry => entry = None) entries -> omap id entries = [].
Proof.
  induction 1 as [|entry rest -> _ IH]; [reflexivity|exact IH].
Qed.

Lemma prepare_skip_opts_positive (array : list (option string)) len :
  0 < len -> len <= N.of_nat (length array) ->
  prepare_skip_opts (Some array) len =
    Returns (Some (omap id (take (N.to_nat len) array))).
Proof.
  intros Hpos Hle. unfold prepare_skip_opts.
  destruct (decide _); [|contradiction].
  rewrite skip_loop_spec by lia. reflexivity.
Qed.

Lemma bytes_pipeline_skip t mb mbl sk skl cf si thr out outl w m s c1 c2 th r :
  EvSimplify m s c1 c2 th r
    ∈ events_since w
        (snd (onnxsim_simplify_bytes t mb mbl sk skl cf si thr out outl w)) ->
  prepare_skip_opts sk skl = Returns s.
Proof.
  intros Hin. paths; pick_event Hin; congruence.
Qed.

Lemma file_pipeline_skip t inp outp sk skl cf si thr w i o s c1 c2 th r :
  EvSimplifyPath i o s c1 c2 th r
    ∈ events_since w
        (snd (onnxsim_simplify_file t inp outp sk skl cf si thr w)) ->
  prepare_skip_opts sk skl = Returns s.
Proof.
  intros Hin. paths; pick_event Hin; congruence.
Qed.

Lemma bytes_failures_translated t mb mbl sk skl cf si thr out outl w :
  failures_translated t w
    (onnxsim_simplify_bytes t mb mbl sk skl cf si thr out outl w).
Proof.
  unfold failures_translated.
  paths; (split; [done|split]).
  all: try (intros ev e Hin Hraised; pick_event Hin;
            rewrite ?lookup_insert_eq; done).
  all: intros c Hc Hfail; simplify_eq/=; eexists;
    (split; [reflexivity|]); rewrite lookup_insert_eq; reflexivity.
Qed.

Lemma file_failures_translated t inp outp sk skl cf si thr w :
  failures_translated t w
    (onnxsim_simplify_file t inp outp sk skl cf si thr w).
Proof.
  unfold failures_translated.
  paths; (split; [done|split]).
  all: try (intros ev e Hin Hraised; pick_event Hin;
            rewrite ?lookup_insert_eq; done).
  all: intros c Hc Hfail; simplify_eq/=; eexists;
    (split; [reflexivity|]); rewrite lookup_insert_eq; reflexivity.
Qed.

(** The slots a call leaves alone: all of them when it succeeds, those of
    the other threads in any case. *)
Lemma bytes_slots t mb mbl sk skl cf si thr out outl w :
  let res := onnxsim_simplify_bytes t mb mbl sk skl cf si thr out outl w in
  (fst res = Returns ONNXSIM_SUCCESS -> g_last_error (snd res) = g_last_error w)
  /\ (forall t', t' <> t ->
        g_last_error (snd res) !! t' = g_last_error w !! t').
Proof.
  simpl. paths; (split; [done|]); intros t' Hother;
    rewrite ?lookup_insert_ne by done; reflexivity.
Qed.

Lemma file_slots t inp outp sk skl cf si thr w :
  let res := onnxsim_simplify_file t inp outp sk skl cf si thr w in
  (fst res = Returns ONNXSIM_SUCCESS -> g_last_error (snd res) = g_last_error w)
  /\ (forall t', t' <> t ->
        g_last_error (snd res) !! t' = g_last_error w !! t').
Proof.
  simpl. paths; (split; [done|]); intros t' Hother;
    rewrite ?lookup_insert_ne by done; reflexivity.
Qed.

Lemma get_last_error_slot t (w w' : World) :
  g_last_error w' !! t = g_last_error w !! t ->
  onnxsim_get_last_error t w' = onnxsim_get_last_error t w.
Proof. unfold onnxsim_get_last_error. intros ->. reflexivity. Qed.

Lemma last_error_updated_intro t w res :
  failures_translated t w res ->
  (fst res = Returns ONNXSIM_SUCCESS -> g_last_error (snd res) = g_last_error w) ->
  (forall t', t' <> t -> g_last_error (snd res) !! t' = g_last_error w !! t') ->
  last_error_updated t w res.
Proof.
  intros (_ & _ & Hfail) Hok Hother. split; [|split].
  - intros Hres t'. apply get_last_error_slot. rewrite Hok by exact Hres.
    reflexivity.
  - intros t' Hne. apply get_last_error_slot, Hother, Hne.
  - intros c Hc Hne. destruct (Hfail c Hc Hne) as (msg & Hlast & Hslot).
    exists msg. split; [exact Hlast|].
    unfold onnxsim_get_last_error. rewrite Hslot. reflexivity.
Qed.

Lemma bytes_last_error_updated t mb mbl sk skl cf si thr out outl w :
  last_error_updated t w
    (onnxsim_simplify_bytes t mb mbl sk skl cf si thr out outl w).
Proof.
  apply last_error_updated_intro.
  - apply bytes_failures_translated.
  - apply bytes_slots.
  - apply bytes_slots.
Qed.

Lemma file_last_error_updated t inp outp sk skl cf si thr w :
  last_error_updated t w
    (onnxsim_simplify_file t inp outp sk skl cf si thr w).
Proof.
  apply last_error_updated_intro.
  - apply file_failures_translated.
  - apply file_slots.
  - apply file_slots.
Qed.

End BoundaryFacts.

Section BoundaryClaims.
Context `{Collaborators}.

(** C3. A call of [onnxsim_simplify_bytes] with a null [model_bytes]
    returns the invalid-argument code, and the only thing it does before is
    to store the message: nothing is parsed, the pipeline is not called, and
    the process-wide objects (the folding record among them) and the
    caller's out-parameters are as they were. *)
Theorem simplify_bytes_null_model t mbl sk skl cf si thr out outl w :
  let res := onnxsim_simplify_bytes t None mbl sk skl cf si thr out outl w in
  fst res = Returns ONNXSIM_ERROR_INVALID_ARGUMENT
  /\ events_since w (snd res) =
       [EvSetLastError t "model_bytes cannot be NULL"]
  /\ process (snd res) = process w
  /\ g_folding_record (process (snd res)) = g_folding_record (process w)
  /\ ptr_cells (snd res) = ptr_cells w
  /\ size_cells (snd res) = size_cells w
  /\ g_last_error (snd res) =
       <[t := "model_bytes cannot be NULL"]> (g_last_error w).
Proof.
  simpl. since. repeat split.
Qed.

(** C8. A call of [onnxsim_simplify_bytes] with a null [out_bytes] or a null
    [out_bytes_len] returns the invalid-argument code with a message stored,
    whatever the (non-null) model bytes are: nothing is parsed and the
    pipeline is not called. *)
Theorem simplify_bytes_null_out t buffer mbl sk skl cf si thr out outl w :
  out = None \/ outl = None ->
  let res :=
    onnxsim_simplify_bytes t (Some buffer) mbl sk skl cf si thr out outl w in
  fst res = Returns ONNXSIM_ERROR_INVALID_ARGUMENT
  /\ events_since w (snd res) =
       [EvSetLastError t "out_bytes or out_bytes_len cannot be NULL"]
  /\ process (snd res) = process w
  /\ g_last_error (snd res) !! t =
       Some "out_bytes or out_bytes_len cannot be NULL".
Proof.
  intros [-> | ->]; [|destruct out]; simpl; since;
    rewrite lookup_insert_eq; repeat split.
Qed.

(** C4. A non-null [skip_optimizers] of length zero gives the absent skip
    list. Both entry points then behave exactly as with a null pointer, and
    every call they make to the pipeline carries the absent skip list. *)
Theorem zero_length_skip_list (array : list (option string)) :
  prepare_skip_opts (Some array) 0 = Returns None
  /\ (forall t mb mbl cf si thr out outl w,
        (forall n,
           onnxsim_simplify_bytes t mb mbl (Some array) 0 cf si thr out outl w
           = onnxsim_simplify_bytes t mb mbl None n cf si thr out outl w)
        /\ (forall m s c1 c2 th r,
              EvSimplify m s c1 c2 th r
                ∈ events_since w
                    (snd (onnxsim_simplify_bytes t mb mbl (Some array) 0
                            cf si thr out outl w)) ->
              s = None))
  /\ (forall t inp outp cf si thr w,
        (forall n,
           onnxsim_simplify_file t inp outp (Some array) 0 cf si thr w
           = onnxsim_simplify_file t inp outp None n cf si thr w)
        /\ (forall i o s c1 c2 th r,
              EvSimplifyPath i o s c1 c2 th r
                ∈ events_since w
                    (snd (onnxsim_simplify_file t inp outp (Some array) 0
                            cf si thr w)) ->
              s = None)).
Proof.
  split; [reflexivity|split].
  - intros. split; [reflexivity|].
    intros m s c1 c2 th r Hin.
    apply bytes_pipeline_skip in Hin. simpl in Hin. congruence.
  - intros. split; [reflexivity|].
    intros i o s c1 c2 th r Hin.
    apply file_pipeline_skip in Hin. simpl in Hin. congruence.
Qed.

Lemma bytes_reaches_pipeline t buffer mbl sk skl cf si thr out outl w model skip :
  mbl <= N.of_nat (length buffer) ->
  ParseFromString (take (N.to_nat mbl) buffer) = Returns (Some model) ->
  prepare_skip_opts sk skl = Returns skip ->
  exists rest,
    events_since w
      (snd (onnxsim_simplify_bytes t (Some buffer) mbl sk skl cf si thr
              (Some out) (Some outl) w))
    = EvParseFromString (take (N.to_nat mbl) buffer) (Returns (Some model))
      :: EvSimplify model skip (int_to_bool cf) (int_to_bool si) thr
           (fst (Simplify model skip (int_to_bool cf) (int_to_bool si) thr
                   (process w)))
      :: rest.
Proof.
  intros Hle Hparse Hskip.
  unfold onnxsim_simplify_bytes, try_catch, bind, lift, read_array,
    model_ParseFromString, call_Simplify.
  destruct (decide _); [|contradiction]. rewrite Hparse, Hskip. simpl.
  destruct (Simplify _ _ _ _ _ _) as [r p]. simpl.
  paths; eexists; reflexivity.
Qed.

Lemma file_reaches_pipeline t inp outp sk skl cf si thr w skip :
  prepare_skip_opts sk skl = Returns skip ->
  let run :=
    SimplifyPath inp outp skip (int_to_bool cf) (int_to_bool si) thr
      (process w) in
  let res :=
    onnxsim_simplify_file t (Some inp) (Some outp) sk skl cf si thr w in
  (exists rest,
     events_since w (snd res)
     = EvSimplifyPath inp outp skip (int_to_bool cf) (int_to_bool si) thr
         (fst run) :: rest)
  /\ (forall u, fst run = Returns u -> fst res = Returns ONNXSIM_SUCCESS).
Proof.
  intros Hskip. simpl.
  unfold onnxsim_simplify_file, try_catch, bind, lift, call_SimplifyPath.
  rewrite Hskip. simpl.
  destruct (SimplifyPath _ _ _ _ _ _ _) as [r p]. simpl.
  split.
  - paths; eexists; reflexivity.
  - intros u ->. reflexivity.
Qed.

(** C9. For a non-null [skip_optimizers] of positive length (within the
    array it points to), null entries are passed over without any error:
    the skip list built is the non-null entries among the first [len], in
    order, and it is present even when empty. Both entry points do call the
    pipeline with exactly that list (the bytes one once the model has
    parsed, the file one always, succeeding when the pipeline returns), no
    call they log carries another, and two arrays with the same non-null
    entries make the same call. *)
Theorem null_entries_dropped (array : list (option string)) (len : N) :
  0 < len -> len <= N.of_nat (length array) ->
  let kept := omap id (take (N.to_nat len) array) in
  prepare_skip_opts (Some array) len = Returns (Some kept)
  /\ (Forall (fun entry => entry = None) (take (N.to_nat len) array) ->
      prepare_skip_opts (Some array) len = Returns (Some [])
      /\ prepare_skip_opts (Some array) len <> prepare_skip_opts None len)
  /\ (forall t mb mbl cf si thr out outl w m s c1 c2 th r,
        EvSimplify m s c1 c2 th r
          ∈ events_since w
              (snd (onnxsim_simplify_bytes t mb mbl (Some array) len
                      cf si thr out outl w)) ->
        s = Some kept)
  /\ (forall t inp outp cf si thr w i o s c1 c2 th r,
        EvSimplifyPath i o s c1 c2 th r
          ∈ events_since w
              (snd (onnxsim_simplify_file t inp outp (Some array) len
                      cf si thr w)) ->
        s = Some kept)
  /\ (forall t buffer mbl cf si thr out outl w model,
        mbl <= N.of_nat (length buffer) ->
        ParseFromString (take (N.to_nat mbl) buffer)
          = Returns (Some model) ->
        exists rest,
          events_since w
            (snd (onnxsim_simplify_bytes t (Some buffer) mbl (Some array) len
                    cf si thr (Some out) (Some outl) w))
          = EvParseFromString (take (N.to_nat mbl) buffer)
              (Returns (Some model))
            :: EvSimplify model (Some kept) (int_to_bool cf)
                 (int_to_bool si) thr
                 (fst (Simplify model (Some kept) (int_to_bool cf)
                         (int_to_bool si) thr (process w)))
            :: rest)
  /\ (forall t inp outp cf si thr w,
        let run :=
          SimplifyPath inp outp (Some kept) (int_to_bool cf)
            (int_to_bool si) thr (process w) in
        let res :=
          onnxsim_simplify_file t (Some inp) (Some outp) (Some array) len
            cf si thr w in
        (exists rest,
           events_since w (snd res)
           = EvSimplifyPath inp outp (Some kept) (int_to_bool cf)
               (int_to_bool si) thr (fst run) :: rest)
        /\ (forall u,
              fst run = Returns u -> fst res = Returns ONNXSIM_SUCCESS))
  /\ (forall (array' : list (option string)) (len' : N),
        0 < len' -> len' <= N.of_nat (length array') ->
        omap id (take (N.to_nat len') array') = kept ->
        (forall t mb mbl cf si thr out outl w,
           onnxsim_simplify_bytes t mb mbl (Some array') len' cf si thr
             out outl w
           = onnxsim_simplify_bytes t mb mbl (Some array) len cf si thr
               out outl w)
        /\ (forall t inp outp cf si thr w,
              onnxsim_simplify_file t inp outp (Some array') len' cf si thr w
              = onnxsim_simplify_file t inp outp (Some array) len cf si thr
                  w)).
Proof.
  intros Hpos Hle kept.
  pose proof (prepare_skip_opts_positive array len Hpos Hle) as Hprep.
  fold kept in Hprep.
  split; [exact Hprep|].
  split.
  { intros Hnull. rewrite Hprep.
    assert (kept = []) as -> by (apply omap_all_null, Hnull).
    split; [reflexivity|discriminate]. }
  split.
  { intros t mb mbl cf si thr out outl w m s c1 c2 th r Hin.
    apply bytes_pipeline_skip in Hin. congruence. }
  split.
  { intros t inp outp cf si thr w i o s c1 c2 th r Hin.
    apply file_pipeline_skip in Hin. congruence. }
  split.
  { intros t buffer mbl cf si thr out outl w model Hmbl Hparse.
    apply bytes_reaches_pipeline; assumption. }
  split.
  { intros t inp outp cf si thr w.
    apply (file_reaches_pipeline t inp outp (Some array) len cf si thr w
             (Some kept) Hprep). }
  intros array' len' Hpos' Hle' Hsame.
  pose proof (prepare_skip_opts_positive array' len' Hpos' Hle') as Hprep'.
  rewrite Hsame in Hprep'.
  split.
  - intros. unfold onnxsim_simplify_bytes. rewrite Hprep, Hprep'.
    reflexivity.
  - intros. unfold onnxsim_simplify_file. rewrite Hprep, Hprep'.
    reflexivity.
Qed.

(** C5, as amended. With non-null out-parameters, a non-null model buffer
    (of at least [len] bytes) that [ParseFromString] rejects makes
    [onnxsim_simplify_bytes] return the parse-failed code; the call parses,
    stores the message, and does nothing else: the pipeline is not called. *)
Theorem garbage_bytes_parse_failed t buffer len sk skl cf si thr out outl w :
  len <= N.of_nat (length buffer) ->
  ParseFromString (take (N.to_nat len) buffer) = Returns None ->
  let res :=
    onnxsim_simplify_bytes t (Some buffer) len sk skl cf si thr
      (Some out) (Some outl) w in
  fst res = Returns ONNXSIM_ERROR_PARSE_FAILED
  /\ events_since w (snd res) =
       [EvParseFromString (take (N.to_nat len) buffer) (Returns None);
        EvSetLastError t "Failed to parse model protobuf"]
  /\ process (snd res) = process w
  /\ (forall m s c1 c2 th r,
        EvSimplify m s c1 c2 th r ∉ events_since w (snd res)).
Proof.
  intros Hle Hparse res. subst res.
  unfold onnxsim_simplify_bytes, try_catch, bind, lift, read_array,
    model_ParseFromString.
  destruct (decide _); [|contradiction]. rewrite Hparse. simpl. since.
  repeat split. intros m s c1 c2 th r Hin. pick_event Hin.
Qed.

(** C10. When a call of [onnxsim_simplify_bytes] has its [malloc] fail, it
    returns the internal-error code, and at that point the caller's
    [*out_bytes_len] already holds the size of the serialized output (and
    [*out_bytes] holds null). *)
Theorem length_written_before_allocation_failure
    t mb mbl sk skl cf si thr out outl w size :
  let res := onnxsim_simplify_bytes t mb mbl sk skl cf si thr out outl w in
  EvMalloc size false ∈ events_since w (snd res) ->
  fst res = Returns ONNXSIM_ERROR_INTERNAL
  /\ g_last_error (snd res) !! t = Some "Failed to allocate memory for output"
  /\ exists a b model output,
       outl = Some a /\ out = Some b
       /\ EvSerializeToString model (Returns (Some output))
            ∈ events_since w (snd res)
       /\ size = N.of_nat (length output)
       /\ size_cells (snd res) !! a = Some size
       /\ ptr_cells (snd res) !! b = Some None.
Proof.
  intros res Hin. subst res.
  paths; pick_event Hin.
  rewrite !lookup_insert_eq. repeat split.
  do 4 eexists. repeat split; try apply lookup_insert_eq.
  rewrite !elem_of_cons. eauto.
Qed.

(** C7, as amended. [onnxsim_get_last_error] reports the calling thread's
    stored message, or nothing when that string is empty, as it is on a
    thread that never stored one. A failing boundary call leaves the message
    it stored; a successful one changes what no thread gets reported, so an
    earlier message is still reported after it; and no call changes what
    another thread gets reported. *)
Theorem last_error_report t w :
  (g_last_error w !! t = None -> onnxsim_get_last_error t w = None)
  /\ (forall msg,
        g_last_error w !! t = Some msg ->
        onnxsim_get_last_error t w =
          (if decide (msg = "") then None else Some msg))
  /\ (forall mb mbl sk skl cf si thr out outl,
        last_error_updated t w
          (onnxsim_simplify_bytes t mb mbl sk skl cf si thr out outl w))
  /\ (forall inp outp sk skl cf si thr,
        last_error_updated t w
          (onnxsim_simplify_file t inp outp sk skl cf si thr w)).
Proof.
  unfold onnxsim_get_last_error. repeat split.
  - intros ->. reflexivity.
  - intros msg ->. reflexivity.
  - apply bytes_last_error_updated.
  - apply bytes_last_error_updated.
  - apply bytes_last_error_updated.
  - apply file_last_error_updated.
  - apply file_last_error_updated.
  - apply file_last_error_updated.
Qed.

End BoundaryClaims.

(** ** The boundary on explicit inputs *)

Section Runs.
Import Stub.
Local Open Scope positive_scope.

(** A model the stub accepts, simplified without constant folding: the
    output buffer and its length are handed to the caller. *)
Example simplify_bytes_succeeds :
  let res :=
    onnxsim_simplify_bytes 0%nat (Some [x08; x07]) 2%N None 0%N 0 1 0%N
      (Some 1) (Some 2) (start 16) in
  fst res = Returns ONNXSIM_SUCCESS
  /\ ptr_cells (snd res) !! 1 = Some (Some [x08; x07])
  /\ size_cells (snd res) !! 2 = Some 2%N
  /\ onnxsim_get_last_error 0%nat (snd res) = None.
Proof. vm_compute. repeat split. Qed.

(** Constant folding with no executor registered: the pipeline's call of
    [Run] throws, and the boundary reports the internal-error code. *)
Example simplify_bytes_without_executor :
  let res :=
    onnxsim_simplify_bytes 0%nat (Some [x08; x07]) 2%N None 0%N 1 1 0%N
      (Some 1) (Some 2) (start 16) in
  fst res = Returns ONNXSIM_ERROR_INTERNAL
  /\ onnxsim_get_last_error 0%nat (snd res) = Some "empty instance"
  /\ size_cells (snd res) !! 2 = None.
Proof. vm_compute. repeat split. Qed.

Example simplify_file_pipeline_throws :
  let res :=
    onnxsim_simplify_file 3%nat (Some "") (Some "out.onnx") None 0%N 0 0 0%N
      (start 16) in
  fst res = Returns ONNXSIM_ERROR_INTERNAL
  /\ onnxsim_get_last_error 3%nat (snd res) = Some "cannot open input file"
  /\ onnxsim_get_last_error 0%nat (snd res) = None.
Proof. vm_compute. repeat split. Qed.

Lemma simplify_bytes_null_out_witness :
  fst (onnxsim_simplify_bytes 0%nat (Some [x08; x07]) 2%N None 0%N 0 0 0%N
         None (Some 2) (start 16))
  = Returns ONNXSIM_ERROR_INVALID_ARGUMENT.
Proof.
  refine (proj1 (simplify_bytes_null_out 0%nat [x08; x07] 2%N None 0%N 0 0 0%N
                   None (Some 2) (start 16) _)).
  left. reflexivity.
Defined.

Lemma null_entries_dropped_witness :
  let array := [Some "fuse_bn_into_conv"; None; Some "nop"; None] in
  let res :=
    onnxsim_simplify_file 0%nat (Some "in.onnx") (Some "out.onnx")
      (Some array) 3%N 0 1 8%N (start 16) in
  prepare_skip_opts (Some array) 3%N
    = Returns (Some ["fuse_bn_into_conv"; "nop"])
  /\ fst res = Returns ONNXSIM_SUCCESS
  /\ (exists rest,
        events_since (start 16) (snd res)
        = EvSimplifyPath "in.onnx" "out.onnx"
            (Some ["fuse_bn_into_conv"; "nop"]) false true 8%N (Returns ())
          :: rest)
  /\ res
     = onnxsim_simplify_file 0%nat (Some "in.onnx") (Some "out.onnx")
         (Some [Some "fuse_bn_into_conv"; Some "nop"]) 2%N 0 1 8%N (start 16).
Proof.
  intros array res.
  assert (Hpos : (0 < 3)%N) by reflexivity.
  assert (Hle : (3 <= N.of_nat (length array))%N) by (vm_compute; discriminate).
  destruct (null_entries_dropped array 3%N Hpos Hle)
    as (Hprep & _ & _ & _ & _ & Hfile & Hsame).
  destruct (Hfile 0%nat "in.onnx" "out.onnx" 0%Z 1%Z 8%N (start 16))
    as [Hevents Hcode].
  split; [exact Hprep|].
  split; [exact (Hcode () eq_refl)|].
  split; [exact Hevents|].
  symmetry.
  refine (proj2 (Hsame [Some "fuse_bn_into_conv"; Some "nop"] 2%N _ _ _)
            0%nat (Some "in.onnx") (Some "out.onnx") 0%Z 1%Z 8%N (start 16)).
  - reflexivity.
  - vm_compute. discriminate.
  - reflexivity.
Defined.

Lemma garbage_bytes_parse_failed_witness :
  fst (onnxsim_simplify_bytes 0%nat (Some [x00; x01; x02]) 2%N None 0%N 0 0 0%N
         (Some 1) (Some 2) (start 16))
  = Returns ONNXSIM_ERROR_PARSE_FAILED.
Proof.
  refine (proj1 (garbage_bytes_parse_failed 0%nat [x00; x01; x02] 2%N None 0%N
                   0 0 0%N 1 2 (start 16) _ _)).
  - vm_compute. discriminate.
  - reflexivity.
Defined.

(** Garbage bytes with null out-parameters: the argument check comes first,
    and the code returned is not the parse-failed one. *)
Lemma garbage_bytes_null_out_invalid_argument :
  ParseFromString (take 2 [x00; x01; x02]) = Returns None
  /\ fst (onnxsim_simplify_bytes 0%nat (Some [x00; x01; x02]) 2%N None 0%N
            0 0 0%N None None (start 16))
     = Returns ONNXSIM_ERROR_INVALID_ARGUMENT
  /\ fst (onnxsim_simplify_bytes 0%nat (Some [x00; x01; x02]) 2%N None 0%N
            0 0 0%N None None (start 16))
     <> Returns ONNXSIM_ERROR_PARSE_FAILED.
Proof. vm_compute. repeat split. discriminate. Qed.

(** A failing call followed by a successful one on the same thread: the
    message of the failing call is still reported. *)
Lemma last_error_survives_success :
  let w1 :=
    snd (onnxsim_simplify_bytes 0%nat None 0%N None 0%N 0 0 0%N
           (Some 1) (Some 2) (start 16)) in
  let res :=
    onnxsim_simplify_bytes 0%nat (Some [x08; x07]) 2%N None 0%N 0 0 0%N
      (Some 1) (Some 2) w1 in
  fst res = Returns ONNXSIM_SUCCESS
  /\ onnxsim_get_last_error 0%nat (snd res) = Some "model_bytes cannot be NULL"
  /\ onnxsim_get_last_error 0%nat (snd res) <> None.
Proof. vm_compute. repeat split. discriminate. Qed.

Lemma length_written_before_allocation_failure_witness :
  let res :=
    onnxsim_simplify_bytes 0%nat (Some [x08; x07]) 2%N None 0%N 0 0 0%N
      (Some 1) (Some 2) (start 1) in
  fst res = Returns ONNXSIM_ERROR_INTERNAL
  /\ size_cells (snd res) !! 2 = Some 2%N.
Proof.
  intros res.
  destruct (length_written_before_allocation_failure 0%nat (Some [x08; x07])
              2%N None 0%N 0 0 0%N (Some 1) (Some 2) (start 1) 2%N)
    as (Hcode & _ & a & b & model & output & Ha & _ & _ & _ & Hsize & _).
  - vm_compute. repeat constructor.
  - injection Ha as <-. split; [exact Hcode|exact Hsize].
Defined.

End Runs.

(** * Further properties *)

(** ** The folding record: counters and batches *)

Section FoldingRecordBatches.
Variable max_size : N.
Hypothesis max_size_fits : max_size <= SIZE_MAX.

Lemma count_success_app b ops ops' :
  count_success b (ops ++ ops') = count_success b ops + count_success b ops'.
Proof.
  unfold count_success. rewrite filter_app, length_app. lia.
Qed.

Lemma count_success_one b op :
  count_success b [op] = if decide (success op = b) then 1 else 0.
Proof.
  unfold count_success. rewrite filter_cons, filter_nil.
  destruct (decide _); reflexivity.
Qed.

Lemma counted_RecordFold op r :
  counters_agree max_size r ->
  total_succeeded r = count_success true (folded_ops r) ->
  total_failed r = count_success false (folded_ops r) ->
  let r' := snd (RecordFold max_size op r) in
  total_succeeded r' = count_success true (folded_ops r')
  /\ total_failed r' = count_success false (folded_ops r').
Proof.
  intros Hr Hs Hf.
  destruct (decide (N.of_nat (length (folded_ops r)) < max_size))
    as [Hroom|Hfull].
  - rewrite (RecordFold_returns max_size max_size_fits) by assumption.
    simpl. rewrite !count_success_app, !count_success_one, <- Hs, <- Hf.
    destruct (success op); simpl; split; reflexivity.
  - rewrite RecordFold_full by assumption. simpl. split; assumption.
Qed.

Lemma reachable_counted r :
  reachable max_size r ->
  total_succeeded r = count_success true (folded_ops r)
  /\ total_failed r = count_success false (folded_ops r).
Proof.
  induction 1 as [|op r Hr [IHs IHf]|r _ _]; [split; reflexivity| |split; reflexivity].
  apply counted_RecordFold; [|exact IHs|exact IHf].
  apply (reachable_counters_agree max_size max_size_fits), Hr.
Qed.

(** X1. The counters can be read off the entries: in every reachable
    record, succeeded is the number of entries flagged as successes and
    failed the number of the others, and the vector never holds more than
    [max_size] entries. *)
Theorem counters_from_entries r :
  reachable max_size r ->
  total_succeeded r = count_success true (folded_ops r)
  /\ total_failed r = count_success false (folded_ops r)
  /\ N.of_nat (length (folded_ops r)) <= max_size.
Proof.
  intros Hr. destruct (reachable_counted r Hr) as [Hs Hf].
  split; [exact Hs|split; [exact Hf|]].
  apply (reachable_counters_agree max_size max_size_fits r Hr).
Qed.

Lemma RecordFold_each_room ops r :
  counters_agree max_size r ->
  N.of_nat (length (folded_ops r) + length ops) <= max_size ->
  RecordFold_each max_size ops r =
    (Returns (),
     mkFoldingRecord (folded_ops r ++ ops)
       (total_attempted r + N.of_nat (length ops))
       (total_succeeded r + count_success true ops)
       (total_failed r + count_success false ops)).
Proof.
  revert r. induction ops as [|op ops IH]; intros r Hr Hroom.
  - simpl. unfold ret. destruct r. simpl. rewrite app_nil_r.
    unfold count_success. simpl. rewrite !N.add_0_r. reflexivity.
  - simpl in *. unfold bind.
    rewrite (RecordFold_returns max_size max_size_fits) by (assumption || lia).
    rewrite IH.
    + simpl. rewrite <- app_assoc. simpl.
      change (op :: ops) with ([op] ++ ops).
      rewrite !count_success_app, !count_success_one.
      f_equal. f_equal; destruct (success op); simpl; lia.
    + pose proof (counters_agree_RecordFold max_size max_size_fits op r Hr)
        as Hnext.
      rewrite (RecordFold_returns max_size max_size_fits) in Hnext
        by (assumption || lia).
      exact Hnext.
    + simpl. rewrite length_app. simpl. lia.
Qed.

(** X2. Recording a batch: from a reachable record with room for all of
    [ops], calling [RecordFold] on each in turn returns, and leaves the old
    entries followed by [ops] in their order (repeated ones included), with
    attempted, succeeded and failed grown by the number of entries, of
    successes and of failures in [ops]. *)
Theorem RecordFold_each_appends ops r :
  reachable max_size r ->
  N.of_nat (length (folded_ops r) + length ops) <= max_size ->
  RecordFold_each max_size ops r =
    (Returns (),
     mkFoldingRecord (folded_ops r ++ ops)
       (total_attempted r + N.of_nat (length ops))
       (total_succeeded r + count_success true ops)
       (total_failed r + count_success false ops)).
Proof.
  intros Hr. apply RecordFold_each_room.
  apply (reachable_counters_agree max_size max_size_fits), Hr.
Qed.

Lemma RecordFold_each_full op ops r :
  ¬ N.of_nat (length (folded_ops r)) < max_size ->
  RecordFold_each max_size (op :: ops) r =
    (Throws (std_exception length_error_what), r).
Proof.
  intros Hfull. simpl. unfold bind. rewrite RecordFold_full by exact Hfull.
  reflexivity.
Qed.

Lemma RecordFold_each_app ops ops' r r' :
  RecordFold_each max_size ops r = (Returns (), r') ->
  RecordFold_each max_size (ops ++ ops') r = RecordFold_each max_size ops' r'.
Proof.
  revert r. induction ops as [|op ops IH]; intros r Hrun; simpl in *.
  - unfold ret in Hrun. congruence.
  - unfold bind in *. destruct (RecordFold max_size op r) as [[[]|e|] r1];
      try discriminate. apply IH, Hrun.
Qed.

(** X3. A batch that does not fit: the entries that fit are recorded, in
    order and with their counts, the call that finds the vector full throws
    [std::length_error], and the rest of the batch is not recorded. *)
Theorem RecordFold_each_overflow ops r :
  reachable max_size r ->
  max_size < N.of_nat (length (folded_ops r) + length ops) ->
  let fitting :=
    take (N.to_nat max_size - length (folded_ops r)) ops in
  RecordFold_each max_size ops r =
    (Throws (std_exception length_error_what),
     mkFoldingRecord (folded_ops r ++ fitting)
       (total_attempted r + N.of_nat (length fitting))
       (total_succeeded r + count_success true fitting)
       (total_failed r + count_success false fitting)).
Proof.
  intros Hr Hover fitting.
  pose proof (reachable_counters_agree max_size max_size_fits r Hr) as Hagree.
  assert (Hbound : N.of_nat (length (folded_ops r)) <= max_size)
    by apply Hagree.
  assert (Hlen : length fitting = (N.to_nat max_size - length (folded_ops r))%nat).
  { unfold fitting. rewrite length_take. lia. }
  rewrite <- (take_drop (N.to_nat max_size - length (folded_ops r)) ops).
  fold fitting.
  rewrite (RecordFold_each_app fitting _ r _
             (RecordFold_each_room fitting r Hagree ltac:(lia))).
  destruct (drop (N.to_nat max_size - length (folded_ops r)) ops)
    as [|op rest] eqn:Hdrop.
  - apply (f_equal length) in Hdrop. rewrite length_drop in Hdrop.
    simpl in Hdrop. lia.
  - apply RecordFold_each_full. simpl. rewrite length_app. lia.
Qed.

End FoldingRecordBatches.

Lemma counters_from_entries_witness :
  let r :=
    snd (RecordFold 2 Stub.add_op
           (snd (RecordFold 2 Stub.bad_op
                   (snd (RecordFold 2 Stub.add_op FoldingRecord_ctor))))) in
  total_succeeded r = count_success true (folded_ops r)
  /\ total_failed r = count_success false (folded_ops r)
  /\ N.of_nat (length (folded_ops r)) <= 2.
Proof.
  assert (Hfits : 2 <= SIZE_MAX) by (vm_compute; discriminate).
  intros r. apply (counters_from_entries 2 Hfits r).
  do 3 apply reachable_RecordFold. apply reachable_ctor.
Defined.

Lemma RecordFold_each_appends_witness :
  RecordFold_each 3 [Stub.add_op; Stub.add_op; Stub.bad_op] FoldingRecord_ctor
  = (Returns (),
     mkFoldingRecord [Stub.add_op; Stub.add_op; Stub.bad_op] 3 2 1).
Proof.
  assert (Hfits : 3 <= SIZE_MAX) by (vm_compute; discriminate).
  refine (RecordFold_each_appends 3 Hfits
            [Stub.add_op; Stub.add_op; Stub.bad_op] FoldingRecord_ctor _ _).
  - apply reachable_ctor.
  - vm_compute. discriminate.
Defined.

Lemma RecordFold_each_overflow_witness :
  RecordFold_each 2 [Stub.add_op; Stub.bad_op; Stub.add_op] FoldingRecord_ctor
  = (Throws (std_exception length_error_what),
     mkFoldingRecord [Stub.add_op; Stub.bad_op] 2 1 1).
Proof.
  assert (Hfits : 2 <= SIZE_MAX) by (vm_compute; discriminate).
  refine (RecordFold_each_overflow 2 Hfits
            [Stub.add_op; Stub.bad_op; Stub.add_op] FoldingRecord_ctor _ _).
  - apply reachable_ctor.
  - reflexivity.
Defined.

(** ** The executor registry: registration *)

Section RegistryMore.
Context `{Types}.

(** X4. The last registration wins: after [set_instance(a)] and then
    [set_instance(b)], [Run] is exactly one call of [b]'s [_Run] on the same
    model and inputs, whose outcome (a result or an exception) is handed on
    unchanged; the folding record is not touched. After [set_instance] of a
    null pointer, [Run] throws the no-executor condition again. *)
Theorem set_instance_last_writer_wins
    (a : option ModelExecutor) (b : ModelExecutor)
    (model : ModelProto) (inputs : list TensorProto) (p : Process) :
  let p' := snd (set_instance (Some b) (snd (set_instance a p))) in
  let res := Run model inputs p' in
  fst res = fst (_Run b model inputs (outside p))
  /\ outside (snd res) = snd (_Run b model inputs (outside p))
  /\ delegated (snd res) = delegated p ++ [(model, inputs)]
  /\ g_folding_record (snd res) = g_folding_record p
  /\ instance_ (snd res) = Some b
  /\ fst (Run model inputs (snd (set_instance None p'))) =
       Throws NoExecutorBound.
Proof.
  unfold Run, set_instance. simpl.
  destruct (_Run b model inputs (outside p)) as [r o]. repeat split.
Qed.

End RegistryMore.

(** ** The boundary: codes, frames and arguments *)

Section BoundaryMore.
Context `{Collaborators}.

(** X5. A call of [onnxsim_simplify_file] with a null [in_path] or a null
    [out_path] returns the invalid-argument code; all it does is to store
    the message: the pipeline is not called and the process-wide objects
    are unchanged. *)
Theorem simplify_file_null_path t inp outp sk skl cf si thr w :
  inp = None \/ outp = None ->
  let res := onnxsim_simplify_file t inp outp sk skl cf si thr w in
  fst res = Returns ONNXSIM_ERROR_INVALID_ARGUMENT
  /\ events_since w (snd res) =
       [EvSetLastError t "in_path and out_path cannot be NULL"]
  /\ process (snd res) = process w
  /\ onnxsim_get_last_error t (snd res) =
       Some "in_path and out_path cannot be NULL".
Proof.
  intros [-> | ->]; [|destruct inp]; simpl; since;
    unfold onnxsim_get_last_error; simpl;
    rewrite lookup_insert_eq; repeat split.
Qed.

(** X6. The codes that come back: [onnxsim_simplify_bytes] never returns
    the simplification-failed code, and [onnxsim_simplify_file] returns
    nothing but success, invalid-argument and internal. *)
Theorem codes_returned t w c :
  (forall mb mbl sk skl cf si thr out outl,
     fst (onnxsim_simplify_bytes t mb mbl sk skl cf si thr out outl w)
       = Returns c ->
     c <> ONNXSIM_ERROR_SIMPLIFICATION_FAILED)
  /\ (forall inp outp sk skl cf si thr,
        fst (onnxsim_simplify_file t inp outp sk skl cf si thr w)
          = Returns c ->
        c = ONNXSIM_SUCCESS \/ c = ONNXSIM_ERROR_INVALID_ARGUMENT
        \/ c = ONNXSIM_ERROR_INTERNAL).
Proof.
  split.
  - intros mb mbl sk skl cf si thr out outl Hc. paths; discriminate.
  - intros inp outp sk skl cf si thr Hc. paths; auto.
Qed.

End BoundaryMore.

Section BoundaryPaths.
Context `{Collaborators}.


(** X9. What success means for [onnxsim_simplify_bytes]: the first
    [model_bytes_len] bytes were parsed into a model, the pipeline was called
    once on it, its result was serialized, and the caller's [*out_bytes]
    points to a copy of that serialization and [*out_bytes_len] holds its
    length; nothing else was written, and no thread's message changed. *)
Theorem simplify_bytes_success t mb mbl sk skl cf si thr out outl w :
  let res := onnxsim_simplify_bytes t mb mbl sk skl cf si thr out outl w in
  fst res = Returns ONNXSIM_SUCCESS ->
  exists buffer a b model skip simplified output,
    mb = Some buffer /\ out = Some b /\ outl = Some a
    /\ prepare_skip_opts sk skl = Returns skip
    /\ events_since w (snd res) =
         [EvParseFromString (take (N.to_nat mbl) buffer)
            (Returns (Some model));
          EvSimplify model skip (int_to_bool cf) (int_to_bool si) thr
            (Returns simplified);
          EvSerializeToString simplified (Returns (Some output));
          EvMalloc (N.of_nat (length output)) true]
    /\ ptr_cells (snd res) = <[b := Some output]> (ptr_cells w)
    /\ size_cells (snd res) =
         <[a := N.of_nat (length output)]> (size_cells w)
    /\ g_last_error (snd res) = g_last_error w.
Proof.
  intros res Hok. subst res. paths.
  unfold read_array in *. case_match; simplify_eq.
  do 7 eexists. repeat split.
Qed.

(** X10. When [SerializeToString] returns false, [onnxsim_simplify_bytes]
    returns the serialize-failed code with its message, without calling
    [malloc] and without writing to the caller's out-parameters. *)
Theorem simplify_bytes_serialize_failed
    t mb mbl sk skl cf si thr out outl w model :
  let res := onnxsim_simplify_bytes t mb mbl sk skl cf si thr out outl w in
  EvSerializeToString model (Returns None) ∈ events_since w (snd res) ->
  fst res = Returns ONNXSIM_ERROR_SERIALIZE_FAILED
  /\ onnxsim_get_last_error t (snd res) =
       Some "Failed to serialize simplified model"
  /\ (forall size ok, EvMalloc size ok ∉ events_since w (snd res))
  /\ ptr_cells (snd res) = ptr_cells w
  /\ size_cells (snd res) = size_cells w.
Proof.
  intros res Hin. subst res. paths; pick_event Hin.
  unfold onnxsim_get_last_error. simpl. rewrite lookup_insert_eq.
  repeat split. intros size ok Hmalloc. pick_event Hmalloc.
Qed.

(** X11. The caller's objects a call may write: [onnxsim_simplify_bytes]
    writes at most the two objects its out-parameters point to, and writes
    none unless it got as far as calling [malloc];
    [onnxsim_simplify_file] writes none. *)
Theorem out_parameters_frame t sk skl cf si thr w :
  (forall mb mbl out outl,
     let res := onnxsim_simplify_bytes t mb mbl sk skl cf si thr out outl w in
     (forall a, out <> Some a -> ptr_cells (snd res) !! a = ptr_cells w !! a)
     /\ (forall a,
           outl <> Some a -> size_cells (snd res) !! a = size_cells w !! a)
     /\ ((forall size ok, EvMalloc size ok ∉ events_since w (snd res)) ->
         ptr_cells (snd res) = ptr_cells w
         /\ size_cells (snd res) = size_cells w))
  /\ (forall inp outp,
        let res := onnxsim_simplify_file t inp outp sk skl cf si thr w in
        ptr_cells (snd res) = ptr_cells w
        /\ size_cells (snd res) = size_cells w).
Proof.
  split.
  - intros mb mbl out outl. simpl.
    paths; (split; [|split]);
      try (intros c Hother; try reflexivity;
           apply lookup_insert_ne; congruence);
      try (intros _; split; reflexivity).
    all: intros Hnone; exfalso; eapply Hnone; rewrite !elem_of_cons; eauto 10.
  - intros inp outp. simpl. paths; split; reflexivity.
Qed.

(** X12. The configuration reaches the pipeline unchanged: a call makes at
    most one call to the pipeline, with each flag true exactly when the
    integer given is not zero, with the threshold as given, and, from the
    bytes entry point, on the model parsed from the first [model_bytes_len]
    bytes, from the file entry point, with the two paths as given. *)
Theorem configuration_passed_through t sk skl cf si thr w :
  (forall mb mbl out outl,
     let evs :=
       events_since w
         (snd (onnxsim_simplify_bytes t mb mbl sk skl cf si thr out outl w)) in
     (pipeline_calls evs <= 1)%nat
     /\ forall m s c1 c2 th r,
          EvSimplify m s c1 c2 th r ∈ evs ->
          (c1 = true <-> cf <> 0%Z) /\ (c2 = true <-> si <> 0%Z) /\ th = thr
          /\ exists buffer,
               mb = Some buffer
               /\ ParseFromString (take (N.to_nat mbl) buffer)
                  = Returns (Some m))
  /\ (forall inp outp,
        let evs :=
          events_since w
            (snd (onnxsim_simplify_file t inp outp sk skl cf si thr w)) in
        (pipeline_calls evs <= 1)%nat
        /\ forall i o s c1 c2 th r,
             EvSimplifyPath i o s c1 c2 th r ∈ evs ->
             (c1 = true <-> cf <> 0%Z) /\ (c2 = true <-> si <> 0%Z)
             /\ th = thr /\ inp = Some i /\ outp = Some o).
Proof.
  assert (Hflag : forall x, int_to_bool x = true <-> x <> 0%Z).
  { intros x. unfold int_to_bool. rewrite negb_true_iff. apply Z.eqb_neq. }
  split.
  - intros mb mbl out outl. simpl. unfold pipeline_calls.
    paths; (split; [simpl; lia|]);
      intros m' s' c1' c2' th' r' Hin; pick_event Hin.
    all: unfold read_array in *; case_match; simplify_eq.
    all: repeat split; try apply Hflag; eauto.
  - intros inp outp. simpl. unfold pipeline_calls.
    paths; (split; [simpl; lia|]);
      intros i' o' s' c1' c2' th' r' Hin; pick_event Hin.
    all: injection Hin as -> -> -> -> -> -> ->.
    all: repeat split; apply Hflag.
Qed.

End BoundaryPaths.

Section BoundaryFrames.
Context `{Collaborators}.

(** X13. The process-wide objects change only through the pipeline: a call
    that makes no call to the pipeline leaves them all as they were; after a
    call of the bytes entry point that does, the folding record, the
    registered executor and the record of delegations are as the pipeline
    left them; after a call of the file entry point that does, the whole
    process is. *)
Theorem process_changes_only_through_pipeline t sk skl cf si thr w :
  (forall mb mbl out outl,
     let res := onnxsim_simplify_bytes t mb mbl sk skl cf si thr out outl w in
     (pipeline_calls (events_since w (snd res)) = 0%nat ->
      process (snd res) = process w)
     /\ forall m s c1 c2 th r,
          EvSimplify m s c1 c2 th r ∈ events_since w (snd res) ->
          let run := Simplify m s c1 c2 th (process w) in
          fst run = r
          /\ g_folding_record (process (snd res)) = g_folding_record (snd run)
          /\ instance_ (process (snd res)) = instance_ (snd run)
          /\ delegated (process (snd res)) = delegated (snd run))
  /\ (forall inp outp,
        let res := onnxsim_simplify_file t inp outp sk skl cf si thr w in
        (pipeline_calls (events_since w (snd res)) = 0%nat ->
         process (snd res) = process w)
        /\ forall i o s c1 c2 th r,
             EvSimplifyPath i o s c1 c2 th r ∈ events_since w (snd res) ->
             SimplifyPath i o s c1 c2 th (process w) = (r, process (snd res))).
Proof.
  split.
  - intros mb mbl out outl. simpl. unfold pipeline_calls.
    paths; (split; [intros Hnone; (reflexivity || discriminate Hnone)|]);
      intros m' s' c1' c2' th' r' Hin; pick_event Hin.
    all: match goal with
         | Hrun : Simplify _ _ _ _ _ _ = _ |- _ => rewrite Hrun
         end; repeat split.
  - intros inp outp. simpl. unfold pipeline_calls.
    paths; (split; [intros Hnone; (reflexivity || discriminate Hnone)|]);
      intros i' o' s' c1' c2' th' r' Hin; pick_event Hin.
    all: injection Hin as -> -> -> -> -> -> ->; assumption.
Qed.

(** X14. The message that goes with each code: after a call that returned
    parse-failed, serialize-failed or invalid-argument,
    [onnxsim_get_last_error] on the calling thread gives the text that names
    the failure. *)
Theorem failure_messages t sk skl cf si thr w :
  (forall mb mbl out outl,
     let res := onnxsim_simplify_bytes t mb mbl sk skl cf si thr out outl w in
     (fst res = Returns ONNXSIM_ERROR_PARSE_FAILED ->
      onnxsim_get_last_error t (snd res)
        = Some "Failed to parse model protobuf")
     /\ (fst res = Returns ONNXSIM_ERROR_SERIALIZE_FAILED ->
         onnxsim_get_last_error t (snd res)
           = Some "Failed to serialize simplified model")
     /\ (fst res = Returns ONNXSIM_ERROR_INVALID_ARGUMENT ->
         onnxsim_get_last_error t (snd res)
           = Some (match mb with
                   | None => "model_bytes cannot be NULL"
                   | Some _ => "out_bytes or out_bytes_len cannot be NULL"
                   end)))
  /\ (forall inp outp,
        let res := onnxsim_simplify_file t inp outp sk skl cf si thr w in
        fst res = Returns ONNXSIM_ERROR_INVALID_ARGUMENT ->
        onnxsim_get_last_error t (snd res)
          = Some "in_path and out_path cannot be NULL").
Proof.
  split.
  - intros mb mbl out outl. simpl.
    paths; (split; [|split]); intros Hcode; try discriminate Hcode.
    all: unfold onnxsim_get_last_error; simpl; rewrite lookup_insert_eq;
      reflexivity.
  - intros inp outp. simpl.
    paths; intros Hcode; try discriminate Hcode.
    all: unfold onnxsim_get_last_error; simpl; rewrite lookup_insert_eq;
      reflexivity.
Qed.

Lemma read_array_take {A} (buffer buffer' : list A) len :
  len <= N.of_nat (length buffer) ->
  take (N.to_nat len) buffer' = take (N.to_nat len) buffer ->
  read_array buffer' len = read_array buffer len.
Proof.
  intros Hle Htake.
  assert (len <= N.of_nat (length buffer')).
  { apply (f_equal length) in Htake. rewrite !length_take in Htake. lia. }
  unfold read_array. do 2 (destruct (decide _); [|contradiction]).
  rewrite Htake. reflexivity.
Qed.

Lemma prepare_skip_opts_take (array array' : list (option string)) len :
  len <= N.of_nat (length array) ->
  take (N.to_nat len) array' = take (N.to_nat len) array ->
  prepare_skip_opts (Some array') len = prepare_skip_opts (Some array) len.
Proof.
  intros Hle Htake.
  assert (len <= N.of_nat (length array')).
  { apply (f_equal length) in Htake. rewrite !length_take in Htake. lia. }
  destruct (decide (0 < len)) as [Hpos|Hzero].
  - rewrite !prepare_skip_opts_positive by assumption.
    rewrite Htake. reflexivity.
  - unfold prepare_skip_opts. destruct (decide _); [contradiction|].
    reflexivity.
Qed.

(** X15. Nothing behind the given lengths is read: two calls that differ
    only in what the model buffer holds after its first [model_bytes_len]
    bytes, and in what the [skip_optimizers] array holds after its first
    [skip_optimizers_len] entries, end in the same way. *)
Theorem only_given_lengths_read
    t buffer buffer' mbl array array' skl cf si thr w :
  mbl <= N.of_nat (length buffer) ->
  take (N.to_nat mbl) buffer' = take (N.to_nat mbl) buffer ->
  skl <= N.of_nat (length array) ->
  take (N.to_nat skl) array' = take (N.to_nat skl) array ->
  (forall out outl,
     onnxsim_simplify_bytes t (Some buffer') mbl (Some array') skl cf si thr
       out outl w
     = onnxsim_simplify_bytes t (Some buffer) mbl (Some array) skl cf si thr
         out outl w)
  /\ (forall inp outp,
        onnxsim_simplify_file t inp outp (Some array') skl cf si thr w
        = onnxsim_simplify_file t inp outp (Some array) skl cf si thr w).
Proof.
  intros Hmbl Hbuffer Hskl Harray.
  pose proof (read_array_take buffer buffer' mbl Hmbl Hbuffer) as Hread.
  pose proof (prepare_skip_opts_take array array' skl Hskl Harray) as Hprep.
  split.
  - intros out outl. unfold onnxsim_simplify_bytes.
    rewrite Hread, Hprep. reflexivity.
  - intros inp outp. unfold onnxsim_simplify_file.
    rewrite Hprep. reflexivity.
Qed.

Lemma perform_last_error_updated c w :
  last_error_updated (caller c) w (perform c w).
Proof.
  destruct c; simpl.
  - apply bytes_last_error_updated.
  - apply file_last_error_updated.
Qed.

(** X16. Messages persist across calls: through any sequence of boundary
    calls, made by any threads, in which every call of thread [t] succeeds,
    what [onnxsim_get_last_error] reports on [t] stays what it was before
    the sequence, whatever the calls of the other threads do. *)
Theorem last_error_persists t cs w :
  succeeds_on t cs w ->
  onnxsim_get_last_error t (perform_each cs w) = onnxsim_get_last_error t w.
Proof.
  revert w. induction cs as [|c cs IH]; intros w Hrun; [reflexivity|].
  destruct Hrun as [Hhead Htail]. simpl. rewrite IH by exact Htail.
  destruct (perform_last_error_updated c w) as (Hok & Hother & _).
  destruct (decide (caller c = t)) as [Hsame|Hdiff].
  - apply Hok, Hhead, Hsame.
  - apply Hother. congruence.
Qed.

End BoundaryFrames.

(** ** Further runs on explicit inputs *)

Section MoreRuns.
Import Stub.
Local Open Scope positive_scope.

Lemma simplify_file_null_path_witness :
  fst (onnxsim_simplify_file 0%nat (Some "in.onnx") None None 0%N 0 0 0%N
         (start 16))
  = Returns ONNXSIM_ERROR_INVALID_ARGUMENT.
Proof.
  refine (proj1 (simplify_file_null_path 0%nat (Some "in.onnx") None None 0%N
                   0 0 0%N (start 16) _)).
  right. reflexivity.
Defined.


Lemma simplify_bytes_success_witness :
  let res :=
    onnxsim_simplify_bytes 0%nat (Some [x08; x07; x00]) 2%N None 0%N
      0 0 0%N (Some 1) (Some 2) (start 16) in
  exists output,
    ptr_cells (snd res) = <[1 := Some output]> (ptr_cells (start 16))
    /\ size_cells (snd res)
       = <[2 := N.of_nat (length output)]> (size_cells (start 16))
    /\ g_last_error (snd res) = g_last_error (start 16).
Proof.
  intros res.
  assert (Hok : fst res = Returns ONNXSIM_SUCCESS) by reflexivity.
  destruct (simplify_bytes_success 0%nat (Some [x08; x07; x00]) 2%N None 0%N
              0 0 0%N (Some 1) (Some 2) (start 16) Hok)
    as (buffer & a & b & model & skip & simplified & output
        & _ & Hb & Ha & _ & _ & Hptr & Hsize & Herr).
  injection Hb as <-. injection Ha as <-.
  exists output. split; [exact Hptr|split; [exact Hsize|exact Herr]].
Defined.

Lemma simplify_bytes_serialize_failed_witness :
  fst (@onnxsim_simplify_bytes types Picky.collaborators 0%nat (Some [x08])
         1%N None 0%N 0 0 0%N (Some 1) (Some 2) (start 16))
  = Returns ONNXSIM_ERROR_SERIALIZE_FAILED.
Proof.
  refine (proj1 (@simplify_bytes_serialize_failed types Picky.collaborators
                   0%nat (Some [x08]) 1%N None 0%N 0 0 0%N (Some 1) (Some 2)
                   (start 16) [x08] _)).
  unfold events_since. simpl. rewrite !elem_of_cons. auto.
Defined.

Lemma only_given_lengths_read_witness :
  onnxsim_simplify_bytes 0%nat (Some [x08; x07; xff; xff]) 2%N
    (Some [Some "nop"; Some "fuse"]) 1%N 0 0 0%N (Some 1) (Some 2) (start 16)
  = onnxsim_simplify_bytes 0%nat (Some [x08; x07]) 2%N
      (Some [Some "nop"]) 1%N 0 0 0%N (Some 1) (Some 2) (start 16).
Proof.
  refine (proj1 (only_given_lengths_read 0%nat [x08; x07]
                   [x08; x07; xff; xff] 2%N [Some "nop"]
                   [Some "nop"; Some "fuse"] 1%N 0 0 0%N (start 16) _ _ _ _)
            (Some 1) (Some 2)).
  - vm_compute. discriminate.
  - reflexivity.
  - vm_compute. discriminate.
  - reflexivity.
Defined.

(** Thread 0 has a message from a failed call; then thread 1 fails, and
    thread 0 succeeds twice. *)
Lemma last_error_persists_witness :
  let w1 :=
    snd (onnxsim_simplify_bytes 0%nat None 0%N None 0%N 0 0 0%N
           (Some 1) (Some 2) (start 16)) in
  let cs :=
    [SimplifyFile 1%nat None None None 0%N 0 0 0%N;
     SimplifyBytes 0%nat (Some [x08; x07]) 2%N None 0%N 0 0 0%N
       (Some 1) (Some 2);
     SimplifyFile 0%nat (Some "in.onnx") (Some "out.onnx") None 0%N 0 0 0%N] in
  onnxsim_get_last_error 0%nat (perform_each cs w1)
  = onnxsim_get_last_error 0%nat w1.
Proof.
  intros w1 cs. refine (last_error_persists 0%nat cs w1 _).
  repeat split; intros Hcaller; (discriminate Hcaller || reflexivity).
Defined.

End MoreRuns.

(** * The boundary out of memory *)

Ltac unfold_oom :=
  unfold OutOfMemory.onnxsim_simplify_bytes, OutOfMemory.onnxsim_simplify_file,
    try_catch, OutOfMemory.handle_exception, bind, ret, lift, throw,
    OutOfMemory.set_last_error, model_ParseFromString, call_Simplify,
    call_SimplifyPath, model_SerializeToString, std_malloc, store_size,
    store_ptr in *.

(** Case analysis on a scrutinee that holds no other case analysis. *)
Ltac holds_case_analysis term :=
  match term with
  | context [match _ with _ => _ end] => idtac
  end.

Ltac destruct_inner :=
  match goal with
  | |- context [match ?scrutinee with _ => _ end] =>
      tryif holds_case_analysis scrutinee
      then fail
      else destruct scrutinee eqn:?
  end.

(** One goal for each path through an entry point of [OutOfMemory]. *)
Ltac oom_paths := unfold_oom; repeat (destruct_inner; simpl); since.

Section OutOfMemoryFacts.
Context `{Collaborators} `{!StringHeap}.

Lemma set_last_error_enough_memory t error w :
  (forall s o, string_alloc s o = (true, o)) ->
  OutOfMemory.set_last_error t error w = set_last_error t error w.
Proof.
  intros Henough. unfold OutOfMemory.set_last_error, set_last_error.
  rewrite Henough. destruct w as [[] ? ? ? ?]. reflexivity.
Qed.

Ltac with_memory Henough :=
  repeat match goal with
    | |- context [OutOfMemory.set_last_error ?t ?s ?w] =>
        rewrite (set_last_error_enough_memory t s w Henough)
    | Hx : context [OutOfMemory.set_last_error ?t ?s ?w] |- _ =>
        rewrite (set_last_error_enough_memory t s w Henough) in Hx
    end;
  unfold set_last_error in *.

Ltac agree Henough :=
  unfold OutOfMemory.onnxsim_simplify_bytes, onnxsim_simplify_bytes,
    OutOfMemory.onnxsim_simplify_file, onnxsim_simplify_file,
    OutOfMemory.handle_exception, handle_exception, try_catch, bind, ret,
    lift, throw, model_ParseFromString, call_Simplify, call_SimplifyPath,
    model_SerializeToString, std_malloc, store_size, store_ptr;
  repeat (with_memory Henough; try reflexivity; case_match; simplify_eq/=);
  with_memory Henough; try reflexivity.

(** With memory for every message, the entry points of [OutOfMemory] are
    the ones studied above. *)
Lemma enough_memory_bytes t mb mbl sk skl cf si thr out outl w :
  (forall s o, string_alloc s o = (true, o)) ->
  OutOfMemory.onnxsim_simplify_bytes t mb mbl sk skl cf si thr out outl w
  = onnxsim_simplify_bytes t mb mbl sk skl cf si thr out outl w.
Proof.
  intros Henough. agree Henough.
Qed.

Lemma enough_memory_file t inp outp sk skl cf si thr w :
  (forall s o, string_alloc s o = (true, o)) ->
  OutOfMemory.onnxsim_simplify_file t inp outp sk skl cf si thr w
  = onnxsim_simplify_file t inp outp sk skl cf si thr w.
Proof.
  intros Henough. agree Henough.
Qed.

(** So with memory for every message, failures are translated as the
    boundary means to: no exception leaves a call, an exception of the codec
    or the pipeline becomes the internal-error code with its text stored,
    and a failing code is returned right after a message was stored. *)
Lemma failures_translated_with_memory t w :
  (forall s o, string_alloc s o = (true, o)) ->
  (forall mb mbl sk skl cf si thr out outl,
     failures_translated t w
       (OutOfMemory.onnxsim_simplify_bytes t mb mbl sk skl cf si thr
          out outl w))
  /\ (forall inp outp sk skl cf si thr,
        failures_translated t w
          (OutOfMemory.onnxsim_simplify_file t inp outp sk skl cf si thr w)).
Proof.
  intros Henough. split; intros.
  - rewrite enough_memory_bytes by exact Henough.
    apply bytes_failures_translated.
  - rewrite enough_memory_file by exact Henough.
    apply file_failures_translated.
Qed.

(** When the pipeline throws and the handler cannot store the exception's
    text, [std::bad_alloc] leaves the file entry point, and no message is
    stored. *)
Lemma file_handler_failure_escapes t inp outp sk skl cf si thr w skip e p o :
  prepare_skip_opts sk skl = Returns skip ->
  SimplifyPath inp outp skip (int_to_bool cf) (int_to_bool si) thr (process w)
    = (Throws e, p) ->
  string_alloc (exception_message e) (outside p) = (false, o) ->
  let res :=
    OutOfMemory.onnxsim_simplify_file t (Some inp) (Some outp) sk skl cf si
      thr w in
  fst res = Throws bad_alloc
  /\ g_last_error (snd res) = g_last_error w.
Proof.
  intros Hskip Hrun Halloc. simpl.
  unfold OutOfMemory.onnxsim_simplify_file, try_catch, bind, lift,
    call_SimplifyPath.
  rewrite Hskip. simpl. rewrite Hrun. simpl.
  unfold OutOfMemory.handle_exception, bind, OutOfMemory.set_last_error.
  destruct e; simpl in *; rewrite Halloc; split; reflexivity.
Qed.

(** How a call of the bytes entry point can end: with a code; with the
    [std::bad_alloc] of a [set_last_error] that found no memory; or outside
    defined behaviour, through a length that passes the end of its array or
    through the codec or the pipeline. *)
Lemma oom_bytes_shape t mb mbl sk skl cf si thr out outl w :
  let res :=
    OutOfMemory.onnxsim_simplify_bytes t mb mbl sk skl cf si thr out outl w in
  (exists c, fst res = Returns c)
  \/ (fst res = Throws bad_alloc
      /\ exists s o, fst (string_alloc s o) = false)
  \/ (exists buffer, mb = Some buffer /\ read_array buffer mbl = Undefined)
  \/ prepare_skip_opts sk skl = Undefined
  \/ (exists ev, ev ∈ events_since w (snd res) /\ undefined_in ev).
Proof.
  simpl. oom_paths; eauto 8.
  all: try (right; left; split; [reflexivity|];
            match goal with
            | Hfail : string_alloc ?s ?o = (false, _) |- _ =>
                exists s, o; rewrite Hfail; reflexivity
            end).
  all: do 4 right;
    match goal with |- context [?ev :: []] => exists ev end;
    split; [rewrite !elem_of_cons; auto 10|exact I].
Qed.

(** X7. A call of [onnxsim_simplify_bytes] whose lengths stay within the
    arrays they come with, and during which the codec and the pipeline stay
    within defined behaviour, returns a code, or else lets the
    [std::bad_alloc] of a [set_last_error] that ran out of memory in the
    exception handler leave the call; it returns a code whenever the
    strings of [set_last_error] can be had. *)
Theorem well_formed_call_returns t mb mbl sk skl cf si thr out outl w :
  (forall buffer, mb = Some buffer -> mbl <= N.of_nat (length buffer)) ->
  (forall array, sk = Some array -> skl <= N.of_nat (length array)) ->
  let res :=
    OutOfMemory.onnxsim_simplify_bytes t mb mbl sk skl cf si thr out outl w in
  (forall ev, ev ∈ events_since w (snd res) -> ¬ undefined_in ev) ->
  ((exists c, fst res = Returns c) \/ fst res = Throws bad_alloc)
  /\ ((forall s o, fst (string_alloc s o) = true) ->
      exists c, fst res = Returns c).
Proof.
  intros Hmb Hsk res Hdefined.
  assert (Hshape :
    (exists c, fst res = Returns c)
    \/ (fst res = Throws bad_alloc
        /\ exists s o, fst (string_alloc s o) = false)).
  { destruct (oom_bytes_shape t mb mbl sk skl cf si thr out outl w)
      as [Hc|[Hthrow|[(buffer & Hb & Hread)|[Hprep|(ev & Hin & Hev)]]]];
      [left; exact Hc|right; exact Hthrow| | |].
    - exfalso. unfold read_array in Hread.
      destruct (decide _) as [|Hno]; [discriminate|].
      apply Hno, Hmb, Hb.
    - exfalso. destruct sk as [array|]; [|discriminate].
      destruct (decide (0 < skl)) as [Hpos|Hzero].
      + rewrite prepare_skip_opts_positive in Hprep by auto. discriminate.
      + unfold prepare_skip_opts in Hprep.
        destruct (decide _); [contradiction|discriminate].
    - exfalso. exact (Hdefined ev Hin Hev). }
  split.
  - destruct Hshape as [Hc|[Hthrow _]]; [left; exact Hc|right; exact Hthrow].
  - intros Hall. destruct Hshape as [Hc|[_ (s & o & Hfail)]]; [exact Hc|].
    rewrite Hall in Hfail. discriminate.
Qed.

End OutOfMemoryFacts.

(** ** The boundary out of memory, on explicit inputs *)

Section OutOfMemoryRuns.
Import Stub.
Local Open Scope positive_scope.

(** C6, at a failing input. The pipeline cannot open its input and
    throws; the heap has nothing left for the text of the exception. The call does not return: the
    [std::bad_alloc] of [set_last_error] leaves it, with no message stored.
    With memory at hand the same call returns the internal-error code. *)
Lemma handler_bad_alloc_escapes :
  let call :=
    @OutOfMemory.onnxsim_simplify_file types collaborators Tight.heap
      0%nat (Some "") (Some "out.onnx") None 0%N 0 0 0%N in
  fst (call (start 0)) = Throws bad_alloc
  /\ events_since (start 0) (snd (call (start 0)))
     = [EvSimplifyPath "" "out.onnx" None false false 0%N
          (Throws (std_exception "cannot open input file"))]
  /\ g_last_error (snd (call (start 0))) !! 0%nat = None
  /\ fst (call (start 64)) = Returns ONNXSIM_ERROR_INTERNAL
  /\ g_last_error (snd (call (start 64))) !! 0%nat
     = Some "cannot open input file".
Proof. vm_compute. repeat split. Qed.

Lemma well_formed_call_returns_witness :
  let res :=
    @OutOfMemory.onnxsim_simplify_bytes types collaborators Tight.heap
      0%nat (Some [x08; x07; x00]) 2%N (Some [None; Some "nop"]) 1%N 0 1 0%N
      (Some 1) (Some 2) (start 16) in
  (exists c, fst res = Returns c) \/ fst res = Throws bad_alloc.
Proof.
  refine (proj1 (@well_formed_call_returns types collaborators Tight.heap
            0%nat (Some [x08; x07; x00]) 2%N
            (Some [None; Some "nop"]) 1%N 0 1 0%N (Some 1) (Some 2) (start 16)
            _ _ _)).
  - intros buffer [= <-]. vm_compute. discriminate.
  - intros array [= <-]. vm_compute. discriminate.
  - intros ev Hin Hundefined. unfold events_since in Hin. simpl in Hin.
    pick_event Hin; exact Hundefined.
Defined.

End OutOfMemoryRuns.
